(** * Bus recording and speed analysis: a shallow embedding

    The definitions below follow [bus_analysis/myutils.py] and
    [bus_analysis/data_downloader.py].

    Conventions of the embedding:
    - a Python [int] is a [Z];
    - a [datetime] is the number of microseconds since the first
      representable instant, a [timedelta] a number of microseconds,
      both [Z] ([datetime] comparisons and differences are exact);
    - a Python [float] is an IEEE 754 binary64 value, given by its sign,
      mantissa and exponent as a [spec_float]; the operations are the
      correctly rounded ones of the standard ([SFdiv], [SFmul], ...);
    - a [dict] is a [gmap], a [set] a [gset];
    - a computation that may raise returns an [outcome]. *)

From Stdlib Require Import ZArith Lia SpecFloat.
From stdpp Require Import gmap strings list fin_maps sorting.

Local Open Scope Z_scope.

(** ** Exceptions *)

Inductive exn : Type :=
| ZeroDivisionError
| OverflowError
| IndexError
| KeyError (key : string)
| ValueError
| TypeError
| URLError.

(** The result of running a piece of the program against a finite
    record of what its environment answered: a value, an exception
    that escaped, or [Pending] when the record ends while the program
    is still waiting for the clock or the network. *)
Inductive outcome (A : Type) : Type :=
| Ok (a : A)
| Raise (e : exn)
| Pending.
Arguments Ok {A} a.
Arguments Raise {A} e.
Arguments Pending {A}.

#[global] Instance outcome_ret : MRet outcome := fun A a => Ok a.
#[global] Instance outcome_bind : MBind outcome := fun A B k m =>
  match m with
  | Ok a => k a
  | Raise e => Raise e
  | Pending => Pending
  end.

Abbreviation datetime := Z (only parsing).
Abbreviation timedelta := Z (only parsing).
Abbreviation VehicleNumberType := string (only parsing).

(** ** Numbers *)

(** The binary64 format: 53 bits of precision, exponents below 1024. *)
Definition prec : Z := 53.
Definition emax : Z := 1024.
Abbreviation float := spec_float (only parsing).

Definition Z2SF (z : Z) : float :=
  match z with
  | Z0 => S754_zero false
  | Zpos p => S754_finite false p 0
  | Zneg p => S754_finite true p 0
  end.

(** [int / int] for a non-zero divisor: the correctly rounded quotient. *)
Definition long_true_divide (a b : Z) : float :=
  SFdiv prec emax (Z2SF a) (Z2SF b).

(** Python's [a / b] on two [int]s. *)
Definition int_truediv (a b : Z) : outcome float :=
  if b =? 0 then Raise ZeroDivisionError
  else match long_true_divide a b with
       | S754_infinity _ => Raise OverflowError
       | q => Ok q
       end.

(** The [float] of a decimal literal, given by its digits and the number
    of digits after the point: [float_literal 36 1] is [3.6]. *)
Definition float_literal (digits places : Z) : float :=
  long_true_divide digits (10 ^ places).

(** The [float] an [int] is turned into next to a [float] operand. *)
Definition float_of_int (z : Z) : float := long_true_divide z 1.

Definition float_zero : float := S754_zero false.

(** Python's [x / y] on two [float]s. *)
Definition float_truediv (x y : float) : outcome float :=
  if SFeqb y float_zero then Raise ZeroDivisionError
  else Ok (SFdiv prec emax x y).

Definition float_mul (x y : float) : float := SFmul prec emax x y.

(** [timedelta.total_seconds()]: microseconds divided by [10**6]. *)
Definition total_seconds (delta : timedelta) : float :=
  long_true_divide delta 1000000.

(** ** Data model ([myutils.py]) *)

Record Position := mkPosition { _lat : float; _lon : float }.

Definition serialize (self : Position) : list float :=
  [_lat self; _lon self].

Record BusRecord := mkBusRecord {
  _vehicle_number : VehicleNumberType;
  _line : string;
  _brigade : string;
  _time : datetime;
  _pos : Position
}.

Definition get_vehicle_number (r : BusRecord) := _vehicle_number r.
Definition get_time (r : BusRecord) := _time r.
Definition get_position (r : BusRecord) := _pos r.

(** [BusRecord.__eq__] and [__hash__] look at the vehicle number and the
    time only: a [set[BusRecord]] is a set of these pairs. *)
Definition record_key (r : BusRecord) : VehicleNumberType * datetime :=
  (_vehicle_number r, _time r).

Record TimeParser := mkTimeParser { _time_format : string }.

Record BusRecordingStatistics := mkStats {
  _n_requests : Z;
  _n_successful_requests : Z;
  _n_records : Z;
  _processing_start_time : datetime;
  _processing_end_time : datetime
}.

Definition add_requests_and_records_info
    (self other : BusRecordingStatistics) : BusRecordingStatistics :=
  mkStats (_n_requests self + _n_requests other)
          (_n_successful_requests self + _n_successful_requests other)
          (_n_records self + _n_records other)
          (_processing_start_time self)
          (_processing_end_time other).

(** A value of the dictionary returned by [to_json]. *)
Inductive JsonVal := JInt (z : Z) | JStr (s : string).

Section TimeFormat.
(** [datetime.strftime] and [datetime.strptime] of the Python library;
    [strptime] answers [None] where Python raises [ValueError]. *)
Variable strftime : datetime -> string -> string.
Variable strptime : string -> string -> option datetime.

Definition parse_to_datetime (self : TimeParser) (time : string)
  : outcome datetime :=
  match strptime time (_time_format self) with
  | Some t => Ok t
  | None => Raise ValueError
  end.

Definition parse_to_str (self : TimeParser) (time : datetime) : string :=
  strftime time (_time_format self).

(** The dictionary is given as the list of its items in insertion
    order, which is the order in which Python iterates and dumps it. *)
Definition to_json (self : BusRecordingStatistics) (time_parser : TimeParser)
  : list (string * JsonVal) :=
  let start_time_str :=
    parse_to_str time_parser (_processing_start_time self) in
  let end_time_str :=
    parse_to_str time_parser (_processing_end_time self) in
  [ ("Number of requests"%string, JInt (_n_requests self));
    ("Number of successful requests"%string,
       JInt (_n_successful_requests self));
    ("Number of records"%string, JInt (_n_records self));
    ("Processing start time"%string, JStr start_time_str);
    ("Processing end time"%string, JStr end_time_str) ].
End TimeFormat.

(** ** Speed and hotspot analysis ([myutils.py]) *)

(** What [print_bus_speed_info] prints: either that there are no buses
    of the given kind, or the number of buses found, the value handed to
    the ["%.2f"] format and the speed in km/h. *)
Inductive Printed :=
| NoBuses (speed_type : string)
| SpeedInfo (_n_speeding_buses : Z) (percentage : float) (kmh : float).

Section Analysis.
(** [geopy.distance.great_circle(p, q).m] on two [[lat, lon]] lists,
    for coordinates that geopy accepts. *)
Variable great_circle_m : list float -> list float -> float.

Definition distance_to (self other : Position) : float :=
  great_circle_m (serialize self) (serialize other).

Definition get_speed (rec1 rec2 : BusRecord) : outcome float :=
  let dist := distance_to (get_position rec1) (get_position rec2) in
  let t_delta := total_seconds (get_time rec2 - get_time rec1) in
  float_truediv dist t_delta.

(** One round of the loop of [get_speeds], for index [_i]; both indices
    lie within the list for every [_i] of [range(1, len(_bus_recs))]. *)
Definition get_speeds_step (_bus_recs : list BusRecord)
    (_speeds : list (option float)) (_i : nat)
  : outcome (list (option float)) :=
  match _bus_recs !! (_i - 1)%nat, _bus_recs !! _i with
  | Some prev, Some rec =>
      if decide (get_vehicle_number prev = get_vehicle_number rec)
      then s ← get_speed prev rec; Ok (_speeds ++ [Some s])
      else Ok (_speeds ++ [None])
  | _, _ => Raise IndexError
  end.

Definition get_speeds (_bus_recs : list BusRecord)
  : outcome (list (option float)) :=
  foldl (fun acc _i => _speeds ← acc; get_speeds_step _bus_recs _speeds _i)
        (Ok [None])
        (seq 1 (length _bus_recs - 1)).

(** The test of the loop of [print_bus_speed_info]. *)
Definition breaches (speeding_bus_vehicle_nums : gset VehicleNumberType)
    (min_speed : float) (max_speed : option float)
    (_rec : BusRecord) (speed : option float) : bool :=
  bool_decide (get_vehicle_number _rec ∉ speeding_bus_vehicle_nums)
  && match speed with
     | None => false
     | Some speed =>
         SFltb min_speed speed
         && match max_speed with
            | None => true
            | Some max_speed => SFltb speed max_speed
            end
     end.

Definition speeding_vehicles (bus_speeds : list (BusRecord * option float))
    (min_speed : float) (max_speed : option float)
  : gset VehicleNumberType :=
  foldl (fun speeding_bus_vehicle_nums '(_rec, speed) =>
           if breaches speeding_bus_vehicle_nums min_speed max_speed
                       _rec speed
           then {[get_vehicle_number _rec]} ∪ speeding_bus_vehicle_nums
           else speeding_bus_vehicle_nums)
        ∅ bus_speeds.

Definition print_bus_speed_info
    (bus_speeds : list (BusRecord * option float)) (speed_type : string)
    (min_speed : float) (max_speed : option float) : outcome Printed :=
  match bus_speeds with
  | [] => Ok (NoBuses speed_type)
  | _ =>
      let speeding_bus_vehicle_nums :=
        speeding_vehicles bus_speeds min_speed max_speed in
      let _n_speeding_buses := Z.of_nat (size speeding_bus_vehicle_nums) in
      let n_buses :=
        Z.of_nat (size (list_to_set (C := gset VehicleNumberType)
                          (map (fun p => get_vehicle_number (fst p))
                               bus_speeds))) in
      ratio ← int_truediv _n_speeding_buses n_buses;
      Ok (SpeedInfo _n_speeding_buses
                    (float_mul ratio (float_of_int 100))
                    (float_mul min_speed (float_literal 36 1)))
  end.

(** The inner loop of [get_positions_of_interest]. *)
Definition scan_vicinity (rec : BusRecord)
    (bus_speeds : list (BusRecord * option float))
    (visited : gset (VehicleNumberType * datetime))
    (n_buses_in_vicinity : Z)
  : gset (VehicleNumberType * datetime) * Z :=
  foldl (fun '(visited, n_buses_in_vicinity) '(rec2, speed2) =>
           if bool_decide (record_key rec2 ∉ visited)
              && SFltb
                   (distance_to (get_position rec) (get_position rec2))
                   (float_of_int 100)
           then ({[record_key rec2]} ∪ visited, n_buses_in_vicinity + 1)
           else (visited, n_buses_in_vicinity))
        (visited, n_buses_in_vicinity) bus_speeds.

Definition get_positions_of_interest
    (bus_speeds : list (BusRecord * option float))
  : list (Position * Z) :=
  fst (foldl (fun '(pos_speeds, visited) '(rec, speed) =>
                if bool_decide (record_key rec ∈ visited)
                then (pos_speeds, visited)
                else
                  let visited := {[record_key rec]} ∪ visited in
                  let '(visited, n_buses_in_vicinity) :=
                    scan_vicinity rec bus_speeds visited 1 in
                  (pos_speeds ++ [(get_position rec, n_buses_in_vicinity)],
                   visited))
             ([], ∅) bus_speeds).
End Analysis.

(** ** Downloading ([data_downloader.py]) *)

(** One entry of a snapshot, [BusRecordJsonType]: a dictionary whose
    values are strings or floats.  A key that the dictionary lacks is
    [None] here. *)
Record BusRecordJson := mkBusRecordJson {
  VehicleNumber : option string;
  Lines : option string;
  Brigade : option string;
  Time : option string;
  Lat : option float;
  Lon : option float
}.

(** What a response may hold under a key. *)
Inductive Any :=
| AList (entries : list BusRecordJson)
| AStr (s : string)
| AInt (z : Z)
| ANone.

(** One answer of the network to [urlopen(url).read()] followed by
    [json.loads]: a failure of the transport or a decoded dictionary. *)
Inductive Reply :=
| TransportFailure
| Body (response : gmap string Any).

Inductive LogEntry :=
| ApiErrorMessage (result : Any)
| RecordParseError (e : exn)
| RequestingBusData
| NewRecords (n : nat).

Definition getitem (bus_record_field : option string) (key : string)
  : outcome string :=
  match bus_record_field with
  | Some v => Ok v
  | None => Raise (KeyError key)
  end.

Definition getitem_float (bus_record_field : option float) (key : string)
  : outcome float :=
  match bus_record_field with
  | Some v => Ok v
  | None => Raise (KeyError key)
  end.

Definition isinstance_list (v : Any) : bool :=
  match v with
  | AList _ => true
  | _ => false
  end.

Definition is_response_json_valid (response : gmap string Any) : bool :=
  bool_decide ("result"%string ∈ dom response)
  && match response !! "result"%string with
     | Some v => isinstance_list v
     | None => false
     end.

(** [response["result"]] is looked up to build the message. *)
Definition log_api_error (response : gmap string Any) (log : list LogEntry)
  : outcome (list LogEntry) :=
  match response !! "result"%string with
  | Some v => Ok (log ++ [ApiErrorMessage v])
  | None => Raise (KeyError "result")
  end.

(** The loop of [_download_valid_json], with [return_n_requests=True];
    [net] holds the answers still to come.  The delay between requests
    only passes time and is left out. *)
Fixpoint _download_valid_json_loop (net : list Reply) (log : list LogEntry)
    (n_requests : Z)
  : outcome (gmap string Any * Z * list Reply * list LogEntry) :=
  match net with
  | [] => Pending
  | TransportFailure :: _ => Raise URLError
  | Body response :: net =>
      let n_requests := n_requests + 1 in
      if is_response_json_valid response
      then Ok (response, n_requests, net, log)
      else log ← log_api_error response log;
           _download_valid_json_loop net log n_requests
  end.

Definition _download_valid_json (net : list Reply) (log : list LogEntry)
  : outcome (gmap string Any * Z * list Reply * list LogEntry) :=
  let n_requests := 0 in
  _download_valid_json_loop net log n_requests.

(** [is_record_valid] answers and updates [last_bus_recs] in place:
    the updated dictionary is returned next to the answer. *)
Definition _is_record_valid (last_bus_recs : gmap VehicleNumberType datetime)
    (bus_rec : BusRecord) (time_of_start : datetime)
  : bool * gmap VehicleNumberType datetime :=
  let veh_num := get_vehicle_number bus_rec in
  if bool_decide (veh_num ∈ dom last_bus_recs)
     && match last_bus_recs !! veh_num with
        | Some t => bool_decide (t >= get_time bus_rec)
        | None => false
        end
  then (false, last_bus_recs)
  else
    let last_bus_recs := <[veh_num := get_time bus_rec]> last_bus_recs in
    (bool_decide (get_time bus_rec > time_of_start), last_bus_recs).

(** The comprehension [[bus_rec for bus_rec in cur_bus_recs if
    self._is_record_valid(last_bus_recs, bus_rec, time_of_start)]]. *)
Fixpoint valid_buses (last_bus_recs : gmap VehicleNumberType datetime)
    (cur_bus_recs : list BusRecord) (time_of_start : datetime)
  : list BusRecord * gmap VehicleNumberType datetime :=
  match cur_bus_recs with
  | [] => ([], last_bus_recs)
  | bus_rec :: cur_bus_recs =>
      let '(valid, last_bus_recs) :=
        _is_record_valid last_bus_recs bus_rec time_of_start in
      let '(rest, last_bus_recs) :=
        valid_buses last_bus_recs cur_bus_recs time_of_start in
      (if valid then bus_rec :: rest else rest, last_bus_recs)
  end.

Section Downloader.
Variable strptime : string -> string -> option datetime.
(** The configuration: download duration and the parser's format. *)
Variable download_duration : timedelta.
Variable time_parser : TimeParser.
(** The two values of [datetime.now()] taken when [myutils] was loaded:
    the defaults of the start and of the end time of a
    [BusRecordingStatistics]. *)
Variable default_start default_end : datetime.

Definition get_bus_record_from_json (bus_record : BusRecordJson)
  : outcome BusRecord :=
  vehicle_number ← getitem (VehicleNumber bus_record) "VehicleNumber";
  line ← getitem (Lines bus_record) "Lines";
  brigade ← getitem (Brigade bus_record) "Brigade";
  time_str ← getitem (Time bus_record) "Time";
  time ← parse_to_datetime strptime time_parser time_str;
  lat ← getitem_float (Lat bus_record) "Lat";
  lon ← getitem_float (Lon bus_record) "Lon";
  Ok (mkBusRecord vehicle_number line brigade time (mkPosition lat lon)).

Fixpoint _parse_bus_records_loop (result : list BusRecordJson)
    (new_records : list BusRecord) (log : list LogEntry)
  : outcome (list BusRecord * list LogEntry) :=
  match result with
  | [] => Ok (new_records, log)
  | bus :: result =>
      match get_bus_record_from_json bus with
      | Ok bus_rec =>
          _parse_bus_records_loop result (new_records ++ [bus_rec]) log
      | Raise ValueError =>
          _parse_bus_records_loop result new_records
            (log ++ [RecordParseError ValueError])
      | Raise e => Raise e
      | Pending => Pending
      end
  end.

(** [buses_json] comes out of [_download_valid_json], so that its
    ["result"] is a list; the other cases say what iterating over the
    value would do. *)
Definition _parse_bus_records (buses_json : gmap string Any)
    (log : list LogEntry) : outcome (list BusRecord * list LogEntry) :=
  match buses_json !! "result"%string with
  | Some (AList result) => _parse_bus_records_loop result [] log
  | Some (AStr EmptyString) => Ok ([], log)
  | Some _ => Raise TypeError
  | None => Raise (KeyError "result")
  end.

Definition _download_current_buses (net : list Reply) (log : list LogEntry)
  : outcome (list BusRecord * BusRecordingStatistics
             * list Reply * list LogEntry) :=
  '(bus_recs, cur_n_requests, net, log) ← _download_valid_json net log;
  let stats := mkStats cur_n_requests 1 0 default_start default_end in
  '(bus_recs, log) ← _parse_bus_records bus_recs log;
  Ok (bus_recs, stats, net, log).

(** The [while] loop of [_record_buses_loop]; every round reads the
    clock once, so the loop descends along [clock], the readings
    still to come. *)
Fixpoint _record_buses_while (clock : list datetime) (net : list Reply)
    (log : list LogEntry) (time_of_start time_of_end : datetime)
    (stats : BusRecordingStatistics) (bus_recs : list BusRecord)
    (last_bus_recs : gmap VehicleNumberType datetime)
  : outcome (list BusRecord * BusRecordingStatistics
             * list datetime * list Reply * list LogEntry) :=
  match clock with
  | [] => Pending
  | now :: clock =>
      if bool_decide (now < time_of_end) then
        let log := log ++ [RequestingBusData] in
        '(cur_bus_recs, cur_stats, net, log) ←
           _download_current_buses net log;
        let '(valid_buses, last_bus_recs) :=
          valid_buses last_bus_recs cur_bus_recs time_of_start in
        let log := log ++ [NewRecords (length valid_buses)] in
        let bus_recs := bus_recs ++ valid_buses in
        let stats := add_requests_and_records_info stats cur_stats in
        _record_buses_while clock net log time_of_start time_of_end
          stats bus_recs last_bus_recs
      else Ok (bus_recs, stats, clock, net, log)
  end.

Definition _record_buses_loop (clock : list datetime) (net : list Reply)
    (log : list LogEntry) (time_of_start : datetime)
  : outcome (list BusRecord * BusRecordingStatistics
             * list datetime * list Reply * list LogEntry) :=
  let stats := mkStats 0 0 0 default_start default_end in
  let bus_recs := [] in
  let last_bus_recs := ∅ in
  let time_of_end := time_of_start + download_duration in
  _record_buses_while clock net log time_of_start time_of_end
    stats bus_recs last_bus_recs.

Definition record_buses (clock : list datetime) (net : list Reply)
    (log : list LogEntry)
  : outcome (list BusRecord * BusRecordingStatistics
             * list datetime * list Reply * list LogEntry) :=
  match clock with
  | [] => Pending
  | time_of_start :: clock =>
      '(bus_recs, stats, clock, net, log) ←
         _record_buses_loop clock net log time_of_start;
      match clock with
      | [] => Pending
      | now :: clock =>
          let stats := mkStats (_n_requests stats)
                               (_n_successful_requests stats)
                               (Z.of_nat (length bus_recs))
                               time_of_start
                               now in
          Ok (bus_recs, stats, clock, net, log)
      end
  end.
End Downloader.

(** ** Reading the statistics back ([myutils.py]) *)

(** The dictionary of a statistics file: its counts are integers, its
    times strings.  A key that the dictionary lacks is [None] here. *)
Record BusRecordingStatsJson := mkBusRecordingStatsJson {
  Number_of_requests : option Z;
  Number_of_successful_requests : option Z;
  Number_of_records : option Z;
  Processing_start_time : option string;
  Processing_end_time : option string
}.

Definition getitem_int (stats_field : option Z) (key : string) : outcome Z :=
  match stats_field with
  | Some v => Ok v
  | None => Raise (KeyError key)
  end.

(** [get_bus_recording_stats], from the dictionary that [json.load] read
    out of the statistics file on. *)
Definition get_bus_recording_stats
    (strptime : string -> string -> option datetime)
    (stats : BusRecordingStatsJson) (time_parser : TimeParser)
  : outcome BusRecordingStatistics :=
  n_requests ← getitem_int (Number_of_requests stats) "Number of requests";
  n_successful_requests ←
    getitem_int (Number_of_successful_requests stats)
                "Number of successful requests";
  n_records ← getitem_int (Number_of_records stats) "Number of records";
  start_time_str ←
    getitem (Processing_start_time stats) "Processing start time";
  processing_start_time ←
    parse_to_datetime strptime time_parser start_time_str;
  end_time_str ← getitem (Processing_end_time stats) "Processing end time";
  processing_end_time ← parse_to_datetime strptime time_parser end_time_str;
  Ok (mkStats n_requests n_successful_requests n_records
              processing_start_time processing_end_time).

(** ** Downloading the timetables ([data_downloader.py]) *)

(** A bus stop; the field [_pos] of the source is [_bus_stop_pos] here,
    the name [_pos] being that of the field of [BusRecord]. *)
Record BusStop := mkBusStop {
  _bus_stop_id : string;
  _bus_stop_number : string;
  _bus_stop_pos : Position
}.

Definition get_bus_stop_id (bus_stop : BusStop) : string :=
  _bus_stop_id bus_stop.
Definition get_bus_stop_number (bus_stop : BusStop) : string :=
  _bus_stop_number bus_stop.

(** A departure ([myutils.py]); its fields carry the prefix
    [_departure] to keep them apart from those of [BusStop] and
    [BusRecord]. *)
Record Departure := mkDeparture {
  _departure_bus_stop_id : string;
  _departure_bus_stop_number : string;
  _departure_line : string;
  _departure_brigade : string;
  _departure_time : datetime
}.

(** A value of a row handed to [csv.writer]. *)
Inductive Cell :=
| CStr (s : string)
| CTime (t : datetime).

(** [Departure.serialize]. *)
Definition Departure_serialize (d : Departure) : list Cell :=
  [CStr (_departure_bus_stop_id d);
   CStr (_departure_bus_stop_number d);
   CStr (_departure_line d);
   CStr (_departure_brigade d);
   CTime (_departure_time d)].

Definition serialize_list {A} (serialize : A -> list Cell) (objs : list A)
  : list (list Cell) :=
  map serialize objs.

(** The files of the departures folder are kept as the calls of
    [save_to_csv] in the order in which they were made: the number in
    the name of the file and the rows written to it.  Writing a file is
    taken to succeed. *)
Abbreviation Files := (list (Z * list (list Cell))) (only parsing).

Definition save_departures_to_file (departures : list Departure)
    (file_id : Z) (files : Files) : Files :=
  files ++ [(file_id, serialize_list Departure_serialize departures)].

Inductive DepartureLogEntry :=
| DownloadingDeparturesForBusStop (bus_stop_id bus_stop_num : string)
| DownloadingDeparturesForLine (line : string)
| DeparturesReceived (n_departures : Z).

(** The local variables of [download_departures], with the files written
    and the messages that [download_departures] itself has logged so
    far. *)
Record DeparturesRun := mkDeparturesRun {
  departures : list Departure;
  file_id : Z;
  n_departures : Z;
  files : Files;
  departures_log : list DepartureLogEntry
}.

Definition log_departures (entry : DepartureLogEntry) (run : DeparturesRun)
  : DeparturesRun :=
  mkDeparturesRun (departures run) (file_id run) (n_departures run)
                  (files run) (departures_log run ++ [entry]).

Section Departures.

(** The two requests of [download_departures] are left open: each maps
    the state of the outside world to what it hands back, a list or an
    exception, and to the state it leaves.  Neither touches the local
    variables of [download_departures] nor the departures folder. *)
Context {World : Type}.
Variable _download_bus_lines :
  BusStop -> World -> outcome (list string) * World.
Variable _download_departures_for_line :
  string -> string -> string -> World -> outcome (list Departure) * World.

(** The loop over the lines of one bus stop. *)
Fixpoint download_departures_lines (bus_stop_id bus_stop_num : string)
    (lines : list string) (run : DeparturesRun) (w : World)
  : outcome unit * DeparturesRun * World :=
  match lines with
  | [] => (Ok tt, run, w)
  | line :: lines =>
      let run := log_departures (DownloadingDeparturesForLine line) run in
      match _download_departures_for_line bus_stop_id bus_stop_num line w with
      | (Ok cur_departures, w) =>
          let departures := departures run ++ cur_departures in
          let n_departures :=
            n_departures run + Z.of_nat (length cur_departures) in
          let run :=
            if 10000 <? Z.of_nat (length departures)
            then mkDeparturesRun
                   [] (file_id run + 1) n_departures
                   (save_departures_to_file departures (file_id run)
                                            (files run))
                   (departures_log run)
            else mkDeparturesRun
                   departures (file_id run) n_departures
                   (files run) (departures_log run) in
          download_departures_lines bus_stop_id bus_stop_num lines run w
      | (Raise e, w) => (Raise e, run, w)
      | (Pending, w) => (Pending, run, w)
      end
  end.

(** The loop over the bus stops. *)
Fixpoint download_departures_bus_stops (bus_stops : list BusStop)
    (run : DeparturesRun) (w : World)
  : outcome unit * DeparturesRun * World :=
  match bus_stops with
  | [] => (Ok tt, run, w)
  | bus_stop :: bus_stops =>
      let bus_stop_id := get_bus_stop_id bus_stop in
      let bus_stop_num := get_bus_stop_number bus_stop in
      let run :=
        log_departures
          (DownloadingDeparturesForBusStop bus_stop_id bus_stop_num) run in
      match _download_bus_lines bus_stop w with
      | (Ok lines, w) =>
          match download_departures_lines bus_stop_id bus_stop_num
                                          lines run w with
          | (Ok _, run, w) =>
              let run :=
                log_departures (DeparturesReceived (n_departures run)) run in
              download_departures_bus_stops bus_stops run w
          | stopped => stopped
          end
      | (Raise e, w) => (Raise e, run, w)
      | (Pending, w) => (Pending, run, w)
      end
  end.

(** [DataDownloader.download_departures]. *)
Definition download_departures (bus_stops : list BusStop) (w : World)
  : outcome unit * DeparturesRun * World :=
  let run := mkDeparturesRun [] 1 0 [] [] in
  match download_departures_bus_stops bus_stops run w with
  | (Ok _, run, w) =>
      match departures run with
      | [] => (Ok tt, run, w)
      | _ :: _ =>
          (Ok tt,
           mkDeparturesRun
             (departures run) (file_id run) (n_departures run)
             (save_departures_to_file (departures run) (file_id run)
                                      (files run))
             (departures_log run),
           w)
      end
  | stopped => stopped
  end.

End Departures.

(** * Vocabulary of the statements *)

(** ** Accepted records *)

(** What the loop knows after some records went through the check:
    [accepted] are the records kept so far, [last] the dictionary. *)
Record last_seen_inv (S : datetime) (accepted : list BusRecord)
    (last : gmap VehicleNumberType datetime) : Prop := {
  inv_covered : forall r, r ∈ accepted ->
    S < _time r /\
    exists t, last !! _vehicle_number r = Some t /\ _time r <= t;
  inv_witnessed : forall v t, last !! v = Some t -> S < t ->
    exists r, r ∈ accepted /\ _vehicle_number r = v /\ _time r = t;
  inv_increasing : forall (i j : nat) r1 r2, (i < j)%nat ->
    accepted !! i = Some r1 -> accepted !! j = Some r2 ->
    _vehicle_number r1 = _vehicle_number r2 -> _time r1 < _time r2
}.

(** The records of one vehicle, in the order of the list. *)
Definition records_of (v : VehicleNumberType) (recs : list BusRecord)
  : list BusRecord :=
  filter (fun r => _vehicle_number r = v) recs.

Definition increasing_per_vehicle (recs : list BusRecord) : Prop :=
  forall (i j : nat) r1 r2, (i < j)%nat ->
    recs !! i = Some r1 -> recs !! j = Some r2 ->
    _vehicle_number r1 = _vehicle_number r2 -> _time r1 < _time r2.

(** ** Responses *)

(** What is stored under ["result"], if anything. *)
Definition result_of (response : gmap string Any) : Any :=
  default ANone (response !! "result"%string).

(** The response carries a ["result"] that is not a list. *)
Definition result_not_a_list (response : gmap string Any) : Prop :=
  exists v, response !! "result"%string = Some v /\ isinstance_list v = false.

(** An entry with all six keys. *)
Definition complete_entry (e : BusRecordJson) : Prop :=
  is_Some (VehicleNumber e) /\ is_Some (Lines e) /\ is_Some (Brigade e) /\
  is_Some (Time e) /\ is_Some (Lat e) /\ is_Some (Lon e).

(** A response whose ["result"] is a list of complete entries. *)
Definition well_formed (response : gmap string Any) : Prop :=
  exists entries, response !! "result"%string = Some (AList entries)
                  /\ Forall complete_entry entries.

(** ** Speeds *)

(** The speed the analysis assigns to index [i]: none at index 0 and
    across a change of vehicle, else distance over elapsed seconds. *)
Definition speed_at (great_circle_m : list float -> list float -> float)
    (recs : list BusRecord) (i : nat) : option float :=
  match i with
  | O => None
  | S i' =>
      match recs !! i', recs !! i with
      | Some prev, Some rec =>
          if decide (_vehicle_number prev = _vehicle_number rec)
          then Some (SFdiv prec emax
                       (distance_to great_circle_m (_pos prev) (_pos rec))
                       (total_seconds (_time rec - _time prev)))
          else None
      | _, _ => None
      end
  end.

(** Records [i] and [i+1] belong to one vehicle and carry one time. *)
Definition zero_delta_at (recs : list BusRecord) (i : nat) : bool :=
  match recs !! i, recs !! S i with
  | Some prev, Some rec =>
      bool_decide (_vehicle_number prev = _vehicle_number rec)
      && bool_decide (_time prev = _time rec)
  | _, _ => false
  end.

(** Neighbours of one vehicle have strictly increasing times. *)
Definition time_ordered (recs : list BusRecord) : Prop :=
  forall (i : nat) prev rec,
    recs !! i = Some prev -> recs !! S i = Some rec ->
    _vehicle_number prev = _vehicle_number rec -> _time prev < _time rec.

(** ** The speed summary *)

(** A speed lies in the band the summary looks for. *)
Definition in_band (min_speed : float) (max_speed : option float)
    (speed : float) : Prop :=
  SFltb min_speed speed = true /\
  forall m, max_speed = Some m -> SFltb speed m = true.

(** The vehicles of the input. *)
Definition vehicles_of (bus_speeds : list (BusRecord * option float))
  : gset VehicleNumberType :=
  list_to_set (map (fun p => get_vehicle_number (fst p)) bus_speeds).

(** ** Hotspots *)

(** The second record lies less than 100 m from the seed. *)
Definition within_100m (great_circle_m : list float -> list float -> float)
    (seed rec2 : BusRecord) : bool :=
  SFltb (distance_to great_circle_m (_pos seed) (_pos rec2)) (float_of_int 100).

(** The records a seed collects: those of the input not yet visited and
    less than 100 m from the seed, up to the identity of records. *)
Definition members (great_circle_m : list float -> list float -> float)
    (seed : BusRecord) (bus_speeds : list (BusRecord * option float))
    (visited : gset (VehicleNumberType * datetime))
  : gset (VehicleNumberType * datetime) :=
  list_to_set
    (map (fun p => record_key (fst p))
       (filter (fun p => (record_key (fst p) ∉ visited)
                         /\ within_100m great_circle_m seed (fst p) = true)
               bus_speeds)).

(** Greedy clustering as the design describes it: go through the input
    in order, skip what is visited, let every other record seed a
    cluster made of itself and of the members it collects. *)
Fixpoint clusters (great_circle_m : list float -> list float -> float)
    (bus_speeds todo : list (BusRecord * option float))
    (visited : gset (VehicleNumberType * datetime)) : list (Position * Z) :=
  match todo with
  | [] => []
  | (rec, _) :: todo =>
      if decide (record_key rec ∈ visited)
      then clusters great_circle_m bus_speeds todo visited
      else
        let visited := {[record_key rec]} ∪ visited in
        let found := members great_circle_m rec bus_speeds visited in
        (_pos rec, 1 + Z.of_nat (size found))
          :: clusters great_circle_m bus_speeds todo (found ∪ visited)
  end.

(** ** Parsed entries *)

(** The record an entry stands for, when there is one. *)
Definition record_of_entry (strptime : string -> string -> option datetime)
    (time_parser : TimeParser) (e : BusRecordJson) : option BusRecord :=
  match get_bus_record_from_json strptime time_parser e with
  | Ok r => Some r
  | _ => None
  end.

(** The key whose lookup fails first when an entry is turned into a
    record: the four string fields are read first, the coordinates only
    once the time has been parsed. *)
Definition missing_key (strptime : string -> string -> option datetime)
    (time_parser : TimeParser) (e : BusRecordJson) : option string :=
  match VehicleNumber e, Lines e, Brigade e, Time e with
  | None, _, _, _ => Some "VehicleNumber"%string
  | _, None, _, _ => Some "Lines"%string
  | _, _, None, _ => Some "Brigade"%string
  | _, _, _, None => Some "Time"%string
  | Some _, Some _, Some _, Some t =>
      match strptime t (_time_format time_parser), Lat e, Lon e with
      | None, _, _ => None
      | Some _, None, _ => Some "Lat"%string
      | Some _, Some _, None => Some "Lon"%string
      | Some _, Some _, Some _ => None
      end
  end.

(** ** Fetched records *)

(** [last] holds, for every vehicle, the greatest time among the records
    in [seen], and nothing for a vehicle without record in [seen]. *)
Definition holds_latest (seen : list BusRecord)
    (last : gmap VehicleNumberType datetime) : Prop :=
  forall v,
    match last !! v with
    | Some t =>
        (exists r, r ∈ seen /\ _vehicle_number r = v /\ _time r = t) /\
        (forall r, r ∈ seen -> _vehicle_number r = v -> _time r <= t)
    | None => forall r, r ∈ seen -> _vehicle_number r <> v
    end.

(** ** Statistics files *)

Definition json_item (key : string) (v : option JsonVal)
  : list (string * JsonVal) :=
  match v with
  | Some v => [(key, v)]
  | None => []
  end.

(** The items of the dictionary of a statistics file, in the order in
    which [to_json] writes them. *)
Definition json_items (stats : BusRecordingStatsJson)
  : list (string * JsonVal) :=
  json_item "Number of requests" (JInt <$> Number_of_requests stats)
  ++ json_item "Number of successful requests"
       (JInt <$> Number_of_successful_requests stats)
  ++ json_item "Number of records" (JInt <$> Number_of_records stats)
  ++ json_item "Processing start time" (JStr <$> Processing_start_time stats)
  ++ json_item "Processing end time" (JStr <$> Processing_end_time stats).

(** Sum of a counter over a list of statistics. *)
Definition total (counter : BusRecordingStatistics -> Z)
    (l : list BusRecordingStatistics) : Z :=
  foldr Z.add 0 (map counter l).

(** ** Record identities *)

(** The identities of the records of an input of the analysis. *)
Definition identities (bus_speeds : list (BusRecord * option float))
  : gset (VehicleNumberType * datetime) :=
  list_to_set (map (fun p => record_key (fst p)) bus_speeds).

(** The identities visited once the greedy pass has gone through
    [todo]. *)
Fixpoint visited_after (great_circle_m : list float -> list float -> float)
    (bus_speeds todo : list (BusRecord * option float))
    (visited : gset (VehicleNumberType * datetime))
  : gset (VehicleNumberType * datetime) :=
  match todo with
  | [] => visited
  | (rec, _) :: todo =>
      if decide (record_key rec ∈ visited)
      then visited_after great_circle_m bus_speeds todo visited
      else
        let visited := {[record_key rec]} ∪ visited in
        let found := members great_circle_m rec bus_speeds visited in
        visited_after great_circle_m bus_speeds todo (found ∪ visited)
  end.

(** ** Signs *)

(** A distance: zero or a positive number. *)
Definition is_distance (x : float) : bool :=
  match x with
  | S754_zero _ | S754_finite false _ _ | S754_infinity false => true
  | _ => false
  end.

(** A float that carries the given sign, or is no number. *)
Definition signed (s : bool) (x : float) : Prop :=
  match x with
  | S754_zero s' | S754_finite s' _ _ | S754_infinity s' => s' = s
  | S754_nan => True
  end.

(** ** Timetables *)

(** The rows of the files written, in the order of writing. *)
Definition rows_of (files : list (Z * list (list Cell)))
  : list (list Cell) :=
  concat (map snd files).

(** The departures that the requests for the lines of one bus stop hand
    back, one line after the other up to the first request that fails,
    and the world the last request leaves: [None] once a request has
    failed. *)
Fixpoint fetched_for_lines {World : Type}
    (_download_departures_for_line :
       string -> string -> string -> World
       -> outcome (list Departure) * World)
    (bus_stop_id bus_stop_num : string) (lines : list string) (w : World)
  : list Departure * option World :=
  match lines with
  | [] => ([], Some w)
  | line :: lines =>
      match _download_departures_for_line bus_stop_id bus_stop_num line w
      with
      | (Ok cur_departures, w) =>
          let '(later, w) :=
            fetched_for_lines _download_departures_for_line
              bus_stop_id bus_stop_num lines w in
          (cur_departures ++ later, w)
      | _ => ([], None)
      end
  end.

(** The departures that the requests of a run over [bus_stops] hand
    back, in the order of the requests, up to the first request that
    fails. *)
Fixpoint fetched {World : Type}
    (_download_bus_lines :
       BusStop -> World -> outcome (list string) * World)
    (_download_departures_for_line :
       string -> string -> string -> World
       -> outcome (list Departure) * World)
    (bus_stops : list BusStop) (w : World) : list Departure :=
  match bus_stops with
  | [] => []
  | bus_stop :: bus_stops =>
      match _download_bus_lines bus_stop w with
      | (Ok lines, w) =>
          match fetched_for_lines _download_departures_for_line
                  (_bus_stop_id bus_stop) (_bus_stop_number bus_stop)
                  lines w with
          | (ds, Some w) =>
              ds ++ fetched _download_bus_lines
                      _download_departures_for_line bus_stops w
          | (ds, None) => ds
          end
      | _ => []
      end
  end.

(** What holds of the local variables of [download_departures] between
    two requests, [before] being the departures handed back so far. *)
Record run_inv (before : list Departure) (run : DeparturesRun) : Prop := {
  inv_rows :
    rows_of (files run) ++ serialize_list Departure_serialize (departures run)
    = serialize_list Departure_serialize before;
  inv_ids :
    map fst (files run) = map Z.of_nat (seq 1 (length (files run)));
  inv_file_id : file_id run = Z.of_nat (length (files run)) + 1;
  inv_full :
    Forall (fun f => 10000 < Z.of_nat (length (snd f))) (files run);
  inv_buffer : Z.of_nat (length (departures run)) <= 10000;
  inv_count : n_departures run = Z.of_nat (length before)
}.

(** ** Sample data *)

(** A stand-in for geopy in the examples: 111 km per degree along both
    axes. *)
Definition sample_great_circle_m (p q : list float) : float :=
  match p, q with
  | [lat1; lon1], [lat2; lon2] =>
      float_mul
        (SFadd prec emax (SFabs (SFsub prec emax lat1 lat2))
                         (SFabs (SFsub prec emax lon1 lon2)))
        (float_of_int 111000)
  | _, _ => S754_nan
  end.

Definition kijowska : Position :=
  mkPosition (float_literal 52248455 6) (float_literal 21044827 6).
Definition nearby : Position :=
  mkPosition (float_literal 52249000 6) (float_literal 21046000 6).

(** A record of vehicle [v] taken [t] seconds into the day. *)
Definition sample_record (v : VehicleNumberType) (t : Z) (pos : Position)
  : BusRecord :=
  mkBusRecord v "1" "1" (t * 1000000) pos.

Definition sample_stream : list BusRecord :=
  [sample_record "1000" 35900 kijowska;
   sample_record "1000" 36000 kijowska].

(** The session starts at 09:59:00; the first record of the stream is
    older, the second is kept. *)
Definition sample_start : datetime := 35940 * 1000000.

Definition sample_strptime (time format : string) : option datetime :=
  if String.eqb time "10:00:00" then Some (36000 * 1000000)
  else if String.eqb time "10:00:10" then Some (36010 * 1000000)
  else None.

Definition sample_entry (v time : string) : BusRecordJson :=
  mkBusRecordJson (Some v) (Some "1"%string) (Some "1"%string) (Some time)
    (Some (float_literal 520 1)) (Some (float_literal 210 1)).

Definition sample_response (entries : list BusRecordJson) : gmap string Any :=
  {[ "result"%string := AList entries ]}.

Definition sample_error : gmap string Any :=
  {[ "result"%string := AStr "error text" ]}.

(** The clock is read three times: twice before the deadline, once
    after. *)
Definition sample_clock : list datetime :=
  [35941 * 1000000; 35951 * 1000000; 35961 * 1000000].

Definition sample_net : list Reply :=
  [Body (sample_response [sample_entry "1000" "10:00:00"]);
   Body sample_error;
   Body (sample_response [sample_entry "1000" "10:00:00";
                          sample_entry "1000" "later";
                          sample_entry "1000" "10:00:10"])].

(** A stand-in for [strftime] in the examples. *)
Definition sample_strftime (time : datetime) (format : string) : string :=
  if time =? 36000 * 1000000 then "10:00:00"
  else if time =? 36010 * 1000000 then "10:00:10"
  else format.

Definition close_by : Position :=
  mkPosition (float_literal 52248500 6) (float_literal 21044900 6).
Definition across_the_street : Position :=
  mkPosition (float_literal 52248600 6) (float_literal 21045000 6).
Definition halfway : Position :=
  mkPosition (float_literal 52248800 6) (float_literal 21045100 6).
Definition further_on : Position :=
  mkPosition (float_literal 52249100 6) (float_literal 21045400 6).

(** A bus stop with two lines, and requests for departures that are
    answered from a list of answers still to come. *)
Definition sample_bus_stop : BusStop := mkBusStop "7009" "01" kijowska.

Definition sample_departure (line : string) (t : Z) : Departure :=
  mkDeparture "7009" "01" line "1" (t * 1000000).

Definition sample_bus_lines (bus_stop : BusStop)
    (w : list (outcome (list Departure)))
  : outcome (list string) * list (outcome (list Departure)) :=
  (Ok ["520"; "182"]%string, w).

Definition sample_departures_for_line (bus_stop_id bus_stop_num line : string)
    (w : list (outcome (list Departure)))
  : outcome (list Departure) * list (outcome (list Departure)) :=
  match w with
  | [] => (Pending, [])
  | answer :: w => (answer, w)
  end.

(** ** Tactics *)

(** Membership in a set written as a union of singletons. *)
Ltac unfold_membership :=
  repeat match goal with
         | H : _ ∉ _ |- _ => unfold not in H
         | H : context [_ ∈ _ ∪ _] |- _ => rewrite elem_of_union in H
         | H : context [_ ∈ {[ _ ]}] |- _ => rewrite elem_of_singleton in H
         | H : context [_ ∈ ∅] |- _ => rewrite elem_of_empty in H
         end.

(** Decide the next membership test of a run on symbolic records. *)
Ltac next_test :=
  match goal with
  | |- context [bool_decide ?P] =>
      destruct (decide P);
      [rewrite (bool_decide_eq_true_2 P) by assumption
      |rewrite (bool_decide_eq_false_2 P) by assumption]
  | |- context [decide ?P] => destruct (decide P)
  end;
  try (exfalso; unfold_membership; intuition congruence).

(** * Properties *)

(** ** Rounding never loses a quotient that is not tiny *)

Lemma digits2_pos_size p : digits2_pos p = Pos.size p.
Proof. induction p; cbn; congruence. Qed.

Lemma Zdigits2_lower m : 0 < m -> 1 <= Zdigits2 m /\ 2 ^ (Zdigits2 m - 1) <= m.
Proof.
  destruct m as [|p|p]; try lia. intros _. cbn [Zdigits2].
  rewrite digits2_pos_size. split; [lia|].
  pose proof (Pos.size_le p) as H.
  apply Pos2Z.pos_le_pos in H. rewrite Pos2Z.inj_pow in H.
  replace (Z.pos (Pos.size p)) with (Z.succ (Z.pos (Pos.size p) - 1)) in H
    by lia.
  rewrite Z.pow_succ_r in H by lia. lia.
Qed.

Lemma shr_1_m mrs : 0 <= shr_m mrs -> shr_m (shr_1 mrs) = shr_m mrs / 2.
Proof.
  destruct mrs as [m r s]. cbn [shr_m]. intros Hm.
  rewrite <- Z.div2_div.
  destruct m as [|[p|p|]|p]; try lia; reflexivity.
Qed.

Lemma pow2_xO p : 2 ^ Z.pos p~0 = 2 ^ Z.pos p * 2 ^ Z.pos p.
Proof.
  replace (Z.pos p~0) with (Z.pos p + Z.pos p) by lia.
  apply Z.pow_add_r; lia.
Qed.

Lemma pow2_xI p : 2 ^ Z.pos p~1 = 2 * (2 ^ Z.pos p * 2 ^ Z.pos p).
Proof.
  replace (Z.pos p~1) with (Z.pos p + Z.pos p + 1) by lia.
  rewrite !Z.pow_add_r by lia. change (2 ^ 1) with 2. lia.
Qed.

Lemma iter_shr_1_m p : forall mrs, 0 <= shr_m mrs ->
  shr_m (SpecFloat.iter_pos shr_1 p mrs) = shr_m mrs / 2 ^ Z.pos p.
Proof.
  induction p as [p IH|p IH|]; intros mrs Hm; cbn [SpecFloat.iter_pos].
  - assert (H1 : 0 <= shr_m (shr_1 mrs))
      by (rewrite shr_1_m by lia; apply Z.div_pos; lia).
    assert (H2 : 0 <= shr_m (SpecFloat.iter_pos shr_1 p (shr_1 mrs)))
      by (rewrite IH by lia; apply Z.div_pos; lia).
    rewrite IH, IH, shr_1_m by lia.
    rewrite !Z.div_div by lia.
    f_equal. rewrite pow2_xI. lia.
  - assert (H2 : 0 <= shr_m (SpecFloat.iter_pos shr_1 p mrs))
      by (rewrite IH by lia; apply Z.div_pos; lia).
    rewrite IH, IH by lia. rewrite Z.div_div by lia.
    f_equal. rewrite pow2_xO. lia.
  - rewrite shr_1_m by lia. reflexivity.
Qed.

Lemma shr_record_of_loc_m m l : shr_m (shr_record_of_loc m l) = m.
Proof. destruct l as [|[]]; reflexivity. Qed.

(** Shifting a positive mantissa into the format keeps it positive as
    long as the exponent is not below the least one. *)
Lemma shr_fexp_pos m e l :
  0 < m -> emin prec emax <= e ->
  0 < shr_m (fst (shr_fexp prec emax m e l))
  /\ e <= snd (shr_fexp prec emax m e l).
Proof.
  intros Hm He. destruct (Zdigits2_lower m Hm) as [Hd Hlow].
  unfold shr_fexp, shr.
  destruct (fexp prec emax (Zdigits2 m + e) - e) as [|n|n] eqn:En;
    cbn [fst snd]; rewrite ?shr_record_of_loc_m; try lia.
  split; [|lia].
  rewrite iter_shr_1_m by (rewrite shr_record_of_loc_m; lia).
  rewrite shr_record_of_loc_m.
  apply Z.div_str_pos. split; [lia|].
  eapply Z.le_trans; [|exact Hlow].
  apply Z.pow_le_mono_r; [lia|].
  unfold fexp, emin, prec, emax in *. lia.
Qed.

Lemma round_nearest_even_ge mx lx : mx <= round_nearest_even mx lx.
Proof.
  destruct lx as [|[]]; cbn; try lia. destruct (Z.even mx); lia.
Qed.

Lemma binary_round_aux_not_zero sx mx ex lx :
  0 < mx -> emin prec emax <= ex ->
  SFeqb (binary_round_aux prec emax sx mx ex lx) (S754_zero false) = false.
Proof.
  intros Hm He. unfold binary_round_aux.
  destruct (shr_fexp_pos mx ex lx Hm He) as [H1 H1e].
  destruct (shr_fexp prec emax mx ex lx) as [mrs' e'].
  cbn [fst snd] in H1, H1e.
  set (mx' := round_nearest_even (shr_m mrs') (loc_of_shr_record mrs')).
  assert (Hr : shr_m mrs' <= mx') by apply round_nearest_even_ge.
  destruct (shr_fexp_pos mx' e' loc_Exact) as [H2 _]; [lia|lia|].
  destruct (shr_fexp prec emax _ e' loc_Exact) as [mrs'' e''].
  cbn [fst] in H2.
  destruct (shr_m mrs'') as [|m|m]; try lia.
  destruct (e'' <=? emax - prec); destruct sx; reflexivity.
Qed.

(** A time difference other than zero never rounds to zero seconds. *)
Lemma total_seconds_not_zero (delta : timedelta) :
  delta <> 0 -> SFeqb (total_seconds delta) float_zero = false.
Proof.
  intros Hd. unfold total_seconds, long_true_divide, float_zero.
  assert (Hcore : forall p sx,
            SFeqb (SFdiv prec emax (S754_finite sx p 0) (Z2SF 1000000))
                  (S754_zero false) = false).
  { intros p sx. cbn [Z2SF SFdiv].
    unfold SFdiv_core_binary.
    destruct (Zdigits2_lower (Z.pos p) ltac:(lia)) as [Hdig Hlow].
    set (d1 := Zdigits2 (Z.pos p)) in *.
    change (Zdigits2 1000000) with 20.
    set (e' := Z.min (fexp prec emax (d1 + 0 - (20 + 0))) (0 - 0)).
    assert (He' : e' = Z.min (d1 - 73) 0)
      by (unfold e', fexp, emin, prec, emax; lia).
    set (m' := match 0 - 0 - e' with
               | 0 => Z.pos p
               | Z.pos _ => Z.shiftl (Z.pos p) (0 - 0 - e')
               | Z.neg _ => 0
               end).
    assert (Hm' : 2 ^ 72 <= m').
    { unfold m'. destruct (0 - 0 - e') as [|s|s] eqn:Es; try lia.
      - assert (73 <= d1) by lia.
        eapply Z.le_trans; [|exact Hlow]. apply Z.pow_le_mono_r; lia.
      - rewrite Z.shiftl_mul_pow2 by lia.
        assert (Z.pos s = 73 - d1) by lia.
        replace 72 with ((d1 - 1) + Z.pos s) by lia.
        rewrite Z.pow_add_r by lia.
        apply Z.mul_le_mono_nonneg_r; [apply Z.pow_nonneg; lia|exact Hlow]. }
    pose proof (Z.div_eucl_eq m' 1000000 ltac:(lia)) as Heq.
    pose proof (Z.mod_pos_bound m' 1000000 ltac:(lia)) as Hmod.
    unfold Z.modulo in Hmod.
    destruct (Z.div_eucl m' 1000000) as [q r].
    apply binary_round_aux_not_zero.
    - assert (2 ^ 72 = 4722366482869645213696) by reflexivity. nia.
    - unfold emin, prec, emax. lia. }
  destruct delta as [|p|p]; [lia| |]; apply Hcore.
Qed.

Lemma float_truediv_by_zero x y :
  SFeqb y float_zero = true -> float_truediv x y = Raise ZeroDivisionError.
Proof. intros H. unfold float_truediv. rewrite H. reflexivity. Qed.

Lemma float_truediv_by_nonzero x y :
  SFeqb y float_zero = false -> float_truediv x y = Ok (SFdiv prec emax x y).
Proof. intros H. unfold float_truediv. rewrite H. reflexivity. Qed.

(** The literals and conversions used by the analysis, as binary64
    values. *)
Example float_of_int_100 :
  float_of_int 100 = S754_finite false 7036874417766400 (-46).
Proof. reflexivity. Qed.

Example float_literal_3_6 :
  float_literal 36 1 = S754_finite false 8106479329266893 (-51)
  /\ valid_binary prec emax (float_literal 36 1) = true.
Proof. split; reflexivity. Qed.

Example total_seconds_ten_seconds :
  total_seconds (10 * 1000000) = float_of_int 10.
Proof. reflexivity. Qed.

Example total_seconds_one_microsecond :
  total_seconds 1 = S754_finite false 4722366482869645 (-72).
Proof. reflexivity. Qed.

(** ** A quotient of at most one does not overflow *)

Lemma Zdigits2_upper m : 0 <= m -> m < 2 ^ Zdigits2 m.
Proof.
  destruct m as [|p|p]; try lia; intros _; [reflexivity|].
  cbn [Zdigits2]. rewrite digits2_pos_size.
  pose proof (Pos.size_gt p) as H.
  apply Pos2Z.pos_lt_pos in H. rewrite Pos2Z.inj_pow in H. exact H.
Qed.

Lemma Zdigits2_nonneg m : 0 <= Zdigits2 m.
Proof. destruct m; cbn; lia. Qed.

Lemma Zdigits2_le m k : 0 <= m -> 0 <= k -> m < 2 ^ k -> Zdigits2 m <= k.
Proof.
  intros Hm Hk Hlt. destruct (Z.eq_dec m 0) as [->|Hne]; [cbn; lia|].
  destruct (Zdigits2_lower m ltac:(lia)) as [Hd Hlow].
  apply Z.lt_succ_r. replace (Z.succ k) with (k + 1) by lia.
  assert (H : Zdigits2 m - 1 < k); [|lia].
  apply (Z.pow_lt_mono_r_iff 2); [lia|lia|lia].
Qed.

Lemma shr_fexp_snd m e l :
  snd (shr_fexp prec emax m e l) = Z.max e (fexp prec emax (Zdigits2 m + e)).
Proof.
  unfold shr_fexp, shr.
  destruct (fexp prec emax (Zdigits2 m + e) - e) eqn:En; cbn [snd]; lia.
Qed.

(** After the shift the digits and the exponent still add up to no more
    than before, unless the format's least exponent took over. *)
Lemma shr_fexp_digits m e l :
  0 <= m ->
  0 <= shr_m (fst (shr_fexp prec emax m e l)) /\
  Zdigits2 (shr_m (fst (shr_fexp prec emax m e l)))
    + snd (shr_fexp prec emax m e l)
  <= Z.max (Zdigits2 m + e) (fexp prec emax (Zdigits2 m + e)).
Proof.
  intros Hm. pose proof (Zdigits2_upper m Hm) as Hup.
  pose proof (Zdigits2_nonneg m) as Hd0.
  unfold shr_fexp, shr.
  destruct (fexp prec emax (Zdigits2 m + e) - e) as [|n|n] eqn:En;
    cbn [fst snd]; rewrite ?shr_record_of_loc_m; try lia.
  rewrite iter_shr_1_m by (rewrite shr_record_of_loc_m; lia).
  rewrite shr_record_of_loc_m.
  split; [apply Z.div_pos; lia|].
  destruct (Z_le_gt_dec (Z.pos n) (Zdigits2 m)) as [Hle|Hgt].
  - assert (Zdigits2 (m / 2 ^ Z.pos n) <= Zdigits2 m - Z.pos n); [|lia].
    apply Zdigits2_le; [apply Z.div_pos; lia|lia|].
    apply Z.div_lt_upper_bound; [lia|].
    rewrite <- Z.pow_add_r by lia.
    replace (Z.pos n + (Zdigits2 m - Z.pos n)) with (Zdigits2 m) by lia.
    exact Hup.
  - rewrite Z.div_small; [cbn [Zdigits2]; lia|].
    split; [lia|]. eapply Z.lt_le_trans; [exact Hup|].
    apply Z.pow_le_mono_r; lia.
Qed.

Lemma round_nearest_even_le mx lx : round_nearest_even mx lx <= mx + 1.
Proof.
  destruct lx as [|[]]; cbn; try lia. destruct (Z.even mx); lia.
Qed.

Lemma Zdigits2_succ m k : 0 <= m -> Zdigits2 m <= k -> 0 <= k ->
  forall m', 0 <= m' <= m + 1 -> Zdigits2 m' <= k + 1.
Proof.
  intros Hm Hk Hk0 m' Hm'. apply Zdigits2_le; [lia|lia|].
  pose proof (Zdigits2_upper m Hm) as Hup.
  assert (2 ^ Zdigits2 m <= 2 ^ k)
    by (apply Z.pow_le_mono_r; [lia|exact Hk]).
  rewrite Z.pow_add_r by lia. change (2 ^ 1) with 2. lia.
Qed.

Lemma binary_round_aux_no_overflow sx mx ex lx :
  0 <= mx -> ex <= 0 -> Zdigits2 mx + ex <= 1 ->
  forall s, binary_round_aux prec emax sx mx ex lx <> S754_infinity s.
Proof.
  intros Hm He HD s. unfold binary_round_aux.
  destruct (shr_fexp_digits mx ex lx Hm) as [H1m H1d].
  pose proof (shr_fexp_snd mx ex lx) as H1e.
  destruct (shr_fexp prec emax mx ex lx) as [mrs' e'].
  cbn [fst snd] in H1m, H1d, H1e.
  set (mx' := round_nearest_even (shr_m mrs') (loc_of_shr_record mrs')).
  pose proof (round_nearest_even_ge (shr_m mrs') (loc_of_shr_record mrs')).
  pose proof (round_nearest_even_le (shr_m mrs') (loc_of_shr_record mrs')).
  fold mx' in H, H0.
  pose proof (shr_fexp_snd mx' e' loc_Exact) as H2e.
  destruct (shr_fexp prec emax mx' e' loc_Exact) as [mrs'' e''].
  cbn [snd] in H2e.
  assert (Hfe : forall x, x <= 54 -> fexp prec emax x <= 1)
    by (intros x Hx; unfold fexp, emin, prec, emax; lia).
  assert (He' : e' <= 0)
    by (pose proof (Hfe (Zdigits2 mx + ex) ltac:(lia));
        unfold fexp, emin, prec, emax in *; lia).
  assert (Hd' : Zdigits2 mx' + e' <= 54).
  { pose proof (Zdigits2_nonneg (shr_m mrs')).
    assert (Zdigits2 mx' <= Z.max (Zdigits2 (shr_m mrs')) 0 + 1).
    { apply (Zdigits2_succ (shr_m mrs')); lia. }
    pose proof (Hfe (Zdigits2 mx + ex) ltac:(lia)). lia. }
  assert (He'' : e'' <= emax - prec).
  { pose proof (Hfe _ Hd'). unfold emax, prec. lia. }
  destruct (shr_m mrs''); try discriminate.
  apply Z.leb_le in He''. rewrite He''. discriminate.
Qed.

(** [a / b] for [0 <= a <= b], [0 < b], returns. *)
Lemma int_truediv_fraction (a b : Z) :
  0 <= a <= b -> 0 < b -> exists q, int_truediv a b = Ok q.
Proof.
  intros Ha Hb. unfold int_truediv.
  destruct (Z.eqb_spec b 0) as [|_]; [lia|].
  assert (Hfin : forall s, long_true_divide a b <> S754_infinity s).
  { destruct b as [|pb|pb]; try lia.
    destruct a as [|pa|pa]; try lia; [discriminate|].
    unfold long_true_divide. cbn [Z2SF SFdiv].
    unfold SFdiv_core_binary.
    destruct (Zdigits2_lower (Z.pos pa) ltac:(lia)) as [Hda Hlowa].
    pose proof (Zdigits2_upper (Z.pos pb) ltac:(lia)) as Hupb.
    assert (Hdd : Zdigits2 (Z.pos pa) <= Zdigits2 (Z.pos pb)).
    { assert (Zdigits2 (Z.pos pa) - 1 < Zdigits2 (Z.pos pb)); [|lia].
      apply (Z.pow_lt_mono_r_iff 2); [lia|apply Zdigits2_nonneg|lia]. }
    set (e' := Z.min (fexp prec emax (Zdigits2 (Z.pos pa) + 0
                                      - (Zdigits2 (Z.pos pb) + 0))) (0 - 0)).
    assert (He' : e' <= 0) by (unfold e'; lia).
    set (m' := match 0 - 0 - e' with
               | 0 => Z.pos pa
               | Z.pos _ => Z.shiftl (Z.pos pa) (0 - 0 - e')
               | Z.neg _ => 0
               end).
    assert (Hm' : m' = Z.pos pa * 2 ^ (- e')).
    { unfold m'. destruct (0 - 0 - e') as [|s|s] eqn:Es; try lia.
      - replace (- e') with 0 by lia. cbn. lia.
      - rewrite Z.shiftl_mul_pow2 by lia. f_equal. f_equal. lia. }
    pose proof (Z.div_eucl_eq m' (Z.pos pb) ltac:(lia)) as Heq.
    pose proof (Z.mod_pos_bound m' (Z.pos pb) ltac:(lia)) as Hmod.
    unfold Z.modulo in Hmod.
    destruct (Z.div_eucl m' (Z.pos pb)) as [q r].
    assert (Hpow : 0 < 2 ^ (- e')) by (apply Z.pow_pos_nonneg; lia).
    assert (Hq0 : 0 <= q) by nia.
    assert (Hq : q <= 2 ^ (- e')) by nia.
    intros s. apply binary_round_aux_no_overflow; [exact Hq0|exact He'|].
    assert (Zdigits2 q <= - e' + 1); [|lia].
    apply Zdigits2_le; [lia|lia|].
    rewrite Z.pow_add_r by lia. change (2 ^ 1) with 2. lia. }
  destruct (long_true_divide a b) as [| s | |] eqn:E; eauto.
  exfalso. exact (Hfin s eq_refl).
Qed.

(** ** Statistics *)

(** C6: merging two statistics values sums the three counters, keeps the
    left operand's window start and the right operand's window end, and
    the three counters do not depend on how three values are grouped. *)
Theorem merge_sums_and_is_associative :
  (forall a b,
     let m := add_requests_and_records_info a b in
     _n_requests m = _n_requests a + _n_requests b /\
     _n_successful_requests m
       = _n_successful_requests a + _n_successful_requests b /\
     _n_records m = _n_records a + _n_records b /\
     _processing_start_time m = _processing_start_time a /\
     _processing_end_time m = _processing_end_time b) /\
  (forall a b c,
     let l := add_requests_and_records_info
                (add_requests_and_records_info a b) c in
     let r := add_requests_and_records_info
                a (add_requests_and_records_info b c) in
     _n_requests l = _n_requests r /\
     _n_successful_requests l = _n_successful_requests r /\
     _n_records l = _n_records r).
Proof.
  split.
  - intros a b m. subst m. cbn. repeat split.
  - intros a b c l r. subst l r. cbn. repeat split; lia.
Qed.

(** C9 as amended: the dictionary has five labelled fields, always in
    the same order: the three counters, then the start and the end time,
    each rendered by the parser's time format. *)
Theorem to_json_fields strftime (self : BusRecordingStatistics)
    (time_parser : TimeParser) :
  to_json strftime self time_parser
  = [ ("Number of requests"%string, JInt (_n_requests self));
      ("Number of successful requests"%string,
         JInt (_n_successful_requests self));
      ("Number of records"%string, JInt (_n_records self));
      ("Processing start time"%string,
         JStr (strftime (_processing_start_time self)
                        (_time_format time_parser)));
      ("Processing end time"%string,
         JStr (strftime (_processing_end_time self)
                        (_time_format time_parser))) ]
  /\ length (to_json strftime self time_parser) = 5%nat
  /\ NoDup (map fst (to_json strftime self time_parser)).
Proof.
  split; [reflexivity|]. split; [reflexivity|].
  cbn. repeat (apply NoDup_cons; split;
               [rewrite ?elem_of_cons, elem_of_nil; intros H;
                repeat destruct H as [H|H]; try discriminate; exact H|]).
  apply NoDup_nil. exact I.
Qed.

(** C9 as stated fails: there are not six fields. *)
Lemma to_json_not_six_fields :
  length (to_json sample_strftime
            (mkStats 3 2 2 (35940 * 1000000) (36010 * 1000000))
            (mkTimeParser "%H:%M:%S")) <> 6%nat.
Proof. vm_compute. discriminate. Qed.

(** ** The validity check and the last-seen dictionary *)

Lemma _is_record_valid_unfold last (r : BusRecord) S :
  _is_record_valid last r S =
  match last !! _vehicle_number r with
  | Some t =>
      if decide (_time r <= t) then (false, last)
      else (bool_decide (_time r > S), <[_vehicle_number r := _time r]> last)
  | None => (bool_decide (_time r > S), <[_vehicle_number r := _time r]> last)
  end.
Proof.
  unfold _is_record_valid, get_vehicle_number, get_time.
  destruct (last !! _vehicle_number r) as [t|] eqn:E.
  - rewrite bool_decide_eq_true_2 by (apply elem_of_dom; eauto). cbn.
    destruct (decide (_time r <= t)).
    + rewrite bool_decide_eq_true_2 by lia. reflexivity.
    + rewrite bool_decide_eq_false_2 by lia. reflexivity.
  - rewrite andb_false_r. reflexivity.
Qed.

Lemma last_seen_inv_init S : last_seen_inv S [] ∅.
Proof.
  split.
  - intros r Hr. inversion Hr.
  - intros v t Hv. rewrite lookup_empty in Hv. discriminate.
  - intros i j r1 r2 _ Hi. rewrite lookup_nil in Hi. discriminate.
Qed.

Lemma last_seen_inv_reject S accepted last (r : BusRecord) t :
  last_seen_inv S accepted last ->
  last !! _vehicle_number r = None \/
    (last !! _vehicle_number r = Some t /\ t < _time r) ->
  _time r <= S ->
  last_seen_inv S accepted (<[_vehicle_number r := _time r]> last).
Proof.
  intros [Hc Hw Hi] Hlast Hold. split; [| |exact Hi].
  - intros r' Hr'. destruct (Hc r' Hr') as [HS (t' & Ht' & Hle)].
    split; [exact HS|].
    destruct (decide (_vehicle_number r = _vehicle_number r')) as [e|ne].
    + exfalso. rewrite <- e in Ht'.
      destruct Hlast as [Hn|[Hs Hlt]];
        [rewrite Hn in Ht'; discriminate|].
      rewrite Hs in Ht'. injection Ht' as <-. lia.
    + exists t'. rewrite lookup_insert_ne by exact ne. auto.
  - intros v t' Hv Ht'.
    destruct (decide (_vehicle_number r = v)) as [e|ne].
    + subst v. rewrite lookup_insert_eq in Hv. injection Hv as <-. lia.
    + rewrite lookup_insert_ne in Hv by exact ne. eauto.
Qed.

Lemma last_seen_inv_accept S accepted last (r : BusRecord) t :
  last_seen_inv S accepted last ->
  last !! _vehicle_number r = None \/
    (last !! _vehicle_number r = Some t /\ t < _time r) ->
  S < _time r ->
  last_seen_inv S (accepted ++ [r]) (<[_vehicle_number r := _time r]> last).
Proof.
  intros [Hc Hw Hi] Hlast Hnew.
  assert (Hbelow : forall r', r' ∈ accepted ->
            _vehicle_number r' = _vehicle_number r -> _time r' < _time r).
  { intros r' Hr' e. destruct (Hc r' Hr') as [_ (t' & Ht' & Hle)].
    rewrite e in Ht'. destruct Hlast as [Hn|[Hs Hlt]];
      [rewrite Hn in Ht'; discriminate|].
    rewrite Hs in Ht'. injection Ht' as <-. lia. }
  split.
  - intros r' Hr'. apply elem_of_app in Hr' as [Hr'|Hr'].
    + destruct (Hc r' Hr') as [HS (t' & Ht' & Hle)]. split; [exact HS|].
      destruct (decide (_vehicle_number r = _vehicle_number r')) as [e|ne].
      * rewrite <- e, lookup_insert_eq. eexists; split; [reflexivity|].
        specialize (Hbelow r' Hr' (eq_sym e)). lia.
      * exists t'. rewrite lookup_insert_ne by exact ne. auto.
    + apply list_elem_of_singleton in Hr'. subst r'. split; [exact Hnew|].
      rewrite lookup_insert_eq. eexists; split; [reflexivity|lia].
  - intros v t' Hv Ht'.
    destruct (decide (_vehicle_number r = v)) as [e|ne].
    + subst v. rewrite lookup_insert_eq in Hv. injection Hv as <-.
      exists r. rewrite elem_of_app, list_elem_of_singleton. auto.
    + rewrite lookup_insert_ne in Hv by exact ne.
      destruct (Hw v t' Hv Ht') as (r0 & H0 & H1 & H2).
      exists r0. rewrite elem_of_app. auto.
  - intros i j r1 r2 Hij H1 H2 e.
    assert (Hj : (j < length (accepted ++ [r]))%nat)
      by (eapply lookup_lt_Some; exact H2).
    rewrite length_app in Hj. cbn in Hj.
    destruct (decide (j < length accepted)%nat) as [Hlt|Hge].
    + rewrite lookup_app_l in H1 by lia. rewrite lookup_app_l in H2 by lia.
      exact (Hi i j r1 r2 Hij H1 H2 e).
    + assert (j = length accepted) by lia. subst j.
      rewrite lookup_app_l in H1 by lia.
      rewrite list_lookup_middle in H2 by reflexivity. injection H2 as <-.
      apply Hbelow; [|exact e].
      eapply list_elem_of_lookup_2; exact H1.
Qed.

Lemma last_seen_inv_step S accepted last (r : BusRecord) :
  last_seen_inv S accepted last ->
  last_seen_inv S
    (accepted ++ if fst (_is_record_valid last r S) then [r] else [])
    (snd (_is_record_valid last r S)).
Proof.
  intros Hinv. rewrite _is_record_valid_unfold.
  destruct (last !! _vehicle_number r) as [t|] eqn:E.
  - destruct (decide (_time r <= t)); cbn.
    + rewrite app_nil_r. exact Hinv.
    + destruct (decide (_time r > S)).
      * rewrite bool_decide_eq_true_2 by assumption.
        apply (last_seen_inv_accept S accepted last r t); auto; try lia.
        right; split; [auto|lia].
      * rewrite bool_decide_eq_false_2 by assumption. rewrite app_nil_r.
        apply (last_seen_inv_reject S accepted last r t); auto; try lia.
        right; split; [auto|lia].
  - cbn. destruct (decide (_time r > S)).
    + rewrite bool_decide_eq_true_2 by assumption.
      apply (last_seen_inv_accept S accepted last r 0); auto; lia.
    + rewrite bool_decide_eq_false_2 by assumption. rewrite app_nil_r.
      apply (last_seen_inv_reject S accepted last r 0); auto; lia.
Qed.

Lemma valid_buses_cons last (r : BusRecord) l S :
  valid_buses last (r :: l) S =
  ((if fst (_is_record_valid last r S) then [r] else [])
     ++ fst (valid_buses (snd (_is_record_valid last r S)) l S),
   snd (valid_buses (snd (_is_record_valid last r S)) l S)).
Proof.
  cbn [valid_buses].
  destruct (_is_record_valid last r S) as [b last1]. cbn [fst snd].
  destruct (valid_buses last1 l S) as [rest last2]. cbn [fst snd].
  destruct b; reflexivity.
Qed.

Lemma valid_buses_app last l1 l2 S :
  valid_buses last (l1 ++ l2) S =
  (fst (valid_buses last l1 S)
     ++ fst (valid_buses (snd (valid_buses last l1 S)) l2 S),
   snd (valid_buses (snd (valid_buses last l1 S)) l2 S)).
Proof.
  revert last. induction l1 as [|r l1 IH]; intros last.
  - cbn. destruct (valid_buses last l2 S); reflexivity.
  - rewrite <- app_comm_cons, !valid_buses_cons, IH. cbn [fst snd].
    rewrite app_assoc. reflexivity.
Qed.

Lemma last_seen_inv_valid_buses S l : forall accepted last,
  last_seen_inv S accepted last ->
  last_seen_inv S (accepted ++ fst (valid_buses last l S))
                  (snd (valid_buses last l S)).
Proof.
  induction l as [|r l IH]; intros accepted last Hinv.
  - cbn. rewrite app_nil_r. exact Hinv.
  - rewrite valid_buses_cons. cbn [fst snd]. rewrite app_assoc.
    apply IH, last_seen_inv_step, Hinv.
Qed.

(** The dictionary never forgets a vehicle and its times only grow. *)
Lemma _is_record_valid_last_mono last (r : BusRecord) S v t :
  last !! v = Some t ->
  exists t', snd (_is_record_valid last r S) !! v = Some t' /\ t <= t'.
Proof.
  intros Hv. rewrite _is_record_valid_unfold.
  destruct (decide (_vehicle_number r = v)) as [e|ne].
  - subst v. rewrite Hv. destruct (decide (_time r <= t)); cbn.
    + exists t. split; [exact Hv|lia].
    + rewrite lookup_insert_eq. eexists; split; [reflexivity|lia].
  - destruct (last !! _vehicle_number r) as [t0|];
      [destruct (decide (_time r <= t0))|]; cbn;
      rewrite ?lookup_insert_ne by exact ne; exists t; (split; [exact Hv|lia]).
Qed.

Lemma valid_buses_last_mono l : forall last S v t,
  last !! v = Some t ->
  exists t', snd (valid_buses last l S) !! v = Some t' /\ t <= t'.
Proof.
  induction l as [|r l IH]; intros last S v t Hv.
  - cbn. exists t. split; [exact Hv|lia].
  - rewrite valid_buses_cons. cbn [snd].
    destruct (_is_record_valid_last_mono last r S v t Hv) as (t1 & H1 & Hle).
    destruct (IH _ S v t1 H1) as (t2 & H2 & Hle2).
    exists t2. split; [exact H2|lia].
Qed.

(** Whatever the answer, the checked record's time is covered
    afterwards. *)
Lemma _is_record_valid_last_covers last (r : BusRecord) S :
  exists t, snd (_is_record_valid last r S) !! _vehicle_number r = Some t
            /\ _time r <= t.
Proof.
  rewrite _is_record_valid_unfold.
  destruct (last !! _vehicle_number r) as [t|] eqn:E;
    [destruct (decide (_time r <= t))|]; cbn.
  - exists t. auto.
  - rewrite lookup_insert_eq. eexists; split; [reflexivity|lia].
  - rewrite lookup_insert_eq. eexists; split; [reflexivity|lia].
Qed.

Lemma increasing_per_vehicle_sorted recs v :
  increasing_per_vehicle recs ->
  StronglySorted Z.lt (map _time (records_of v recs)).
Proof.
  unfold records_of. induction recs as [|a recs IH]; intros Hinc.
  - constructor.
  - assert (Htail : increasing_per_vehicle recs).
    { intros i j r1 r2 Hij H1 H2.
      apply (Hinc (S i) (S j)); [lia|exact H1|exact H2]. }
    rewrite filter_cons. destruct (decide (_vehicle_number a = v)) as [e|ne].
    + cbn [map]. constructor; [apply IH, Htail|].
      apply Forall_forall. intros t Ht.
      apply list_elem_of_In, in_map_iff in Ht as (r2 & <- & Hr2).
      apply list_elem_of_In, list_elem_of_filter in Hr2 as [e2 Hr2].
      apply list_elem_of_lookup in Hr2 as [j Hj].
      apply (Hinc 0%nat (S j) a r2); [lia|reflexivity|exact Hj|congruence].
    + apply IH, Htail.
Qed.

(** Every record stream, checked from an empty dictionary, leaves the
    invariant in force. *)
Lemma valid_buses_inv S stream :
  last_seen_inv S (fst (valid_buses ∅ stream S))
                  (snd (valid_buses ∅ stream S)).
Proof.
  apply (last_seen_inv_valid_buses S stream [] ∅), last_seen_inv_init.
Qed.

(** A returning run of the loop kept exactly what the check accepts on
    the stream of all records it fetched. *)
Lemma _record_buses_while_stream strptime tp default_start default_end clock :
  forall net log S E stats bus_recs last recs stats' clock' net' log',
    _record_buses_while strptime tp default_start default_end clock net log S E
      stats bus_recs last = Ok (recs, stats', clock', net', log') ->
    exists stream, recs = bus_recs ++ fst (valid_buses last stream S).
Proof.
  induction clock as [|now clock IH];
    intros net log S E stats bus_recs last recs stats' clock' net' log' Hrun.
  - discriminate.
  - cbn [_record_buses_while] in Hrun.
    destruct (bool_decide (now < E)).
    + destruct (_download_current_buses strptime tp default_start
                  default_end net
                  (log ++ [RequestingBusData]))
        as [[[[cur cur_stats] net1] log1]| |] eqn:Hd;
        cbn in Hrun; try discriminate.
      destruct (valid_buses last cur S) as [valid last1] eqn:Hv.
      apply IH in Hrun as [stream ->].
      exists (cur ++ stream). rewrite valid_buses_app, Hv. cbn [fst snd].
      rewrite app_assoc. reflexivity.
    + injection Hrun as <- _ _ _ _. exists []. cbn. rewrite app_nil_r.
      reflexivity.
Qed.

(** C1: after any stream of records checked since the start of a
    session with start time S, the check accepts a record of vehicle V
    at time T exactly when no accepted record of V has a time >= T and
    T is after S; a record with T <= S is rejected; and once a record of
    V went through the check, its time is covered by the last-seen entry
    of V whether or not the record was kept, so that any later record of
    V whose time does not exceed it is turned down by the last-seen
    comparison alone, whatever the start time, and leaves the dictionary
    untouched. *)
Theorem is_record_valid_accepts_iff
    (S : datetime) (stream : list BusRecord) (r : BusRecord) :
  let accepted := fst (valid_buses ∅ stream S) in
  let last := snd (valid_buses ∅ stream S) in
  (fst (_is_record_valid last r S) = true <->
     (forall r', r' ∈ accepted ->
        _vehicle_number r' = _vehicle_number r -> _time r' < _time r)
     /\ S < _time r)
  /\ (_time r <= S -> fst (_is_record_valid last r S) = false)
  /\ (forall later r',
        _vehicle_number r' = _vehicle_number r -> _time r' <= _time r ->
        let last' := snd (valid_buses last (r :: later) S) in
        (exists t, last' !! _vehicle_number r = Some t /\ _time r <= t)
        /\ forall S', _is_record_valid last' r' S' = (false, last')).
Proof.
  intros accepted last.
  destruct (valid_buses_inv S stream) as [Hc Hw _].
  fold accepted last in Hc, Hw.
  split; [|split].
  - rewrite _is_record_valid_unfold. split.
    + intros Hacc. assert (HS : S < _time r).
      { destruct (last !! _vehicle_number r) as [t|];
          [destruct (decide (_time r <= t))|]; cbn in Hacc;
          try discriminate; apply bool_decide_eq_true in Hacc; lia. }
      split; [|exact HS].
      intros r' Hr' e. destruct (Hc r' Hr') as [_ (t & Ht & Hle)].
      rewrite e in Ht. rewrite Ht in Hacc.
      destruct (decide (_time r <= t)); [discriminate|lia].
    + intros [Hbelow HS].
      destruct (last !! _vehicle_number r) as [t|] eqn:E;
        [destruct (decide (_time r <= t)) as [Hle|]|]; cbn.
      * exfalso. destruct (Hw _ t E) as (r0 & H0 & Hv0 & Ht0); [lia|].
        specialize (Hbelow r0 H0 Hv0). lia.
      * apply bool_decide_eq_true. lia.
      * apply bool_decide_eq_true. lia.
  - intros Hold. rewrite _is_record_valid_unfold.
    destruct (last !! _vehicle_number r) as [t|];
      [destruct (decide (_time r <= t))|]; cbn;
      try reflexivity; apply bool_decide_eq_false; lia.
  - intros later r' e Hle last'.
    assert (Hcov : exists t, last' !! _vehicle_number r = Some t
                             /\ _time r <= t).
    { subst last'. rewrite valid_buses_cons. cbn [snd].
      destruct (_is_record_valid_last_covers last r S) as (t1 & H1 & Hle1).
      destruct (valid_buses_last_mono later _ S _ t1 H1) as (t2 & H2 & Hle2).
      exists t2. split; [exact H2|lia]. }
    split; [exact Hcov|].
    intros S'. destruct Hcov as (t & Ht & Hge).
    rewrite _is_record_valid_unfold, e, Ht.
    destruct (decide (_time r' <= t)); [reflexivity|lia].
Qed.

(** C2: the records the check keeps out of any stream fetched during a
    session, and hence the records a returning run of the polling loop
    hands back, have strictly increasing times vehicle by vehicle: of
    two kept records of one vehicle the earlier kept has the smaller
    time. *)
Theorem accepted_times_strictly_increasing :
  (forall (S : datetime) (stream : list BusRecord) (v : VehicleNumberType),
     let accepted := fst (valid_buses ∅ stream S) in
     increasing_per_vehicle accepted /\
     StronglySorted Z.lt (map _time (records_of v accepted))) /\
  (forall strptime download_duration time_parser default_start default_end
          clock net log time_of_start bus_recs stats clock' net' log'
          (v : VehicleNumberType),
     _record_buses_loop strptime download_duration time_parser
       default_start default_end
       clock net log time_of_start
       = Ok (bus_recs, stats, clock', net', log') ->
     increasing_per_vehicle bus_recs /\
     StronglySorted Z.lt (map _time (records_of v bus_recs))).
Proof.
  assert (Hpure : forall S stream, increasing_per_vehicle
                                     (fst (valid_buses ∅ stream S))).
  { intros S stream. exact (inv_increasing _ _ _ (valid_buses_inv S stream)). }
  split.
  - intros S stream v accepted. split; [apply Hpure|].
    apply increasing_per_vehicle_sorted, Hpure.
  - intros strptime dur tp dts dte clock net log S recs stats clock' net' log'
           v Hrun.
    unfold _record_buses_loop in Hrun.
    apply _record_buses_while_stream in Hrun as [stream ->].
    rewrite app_nil_l. split; [apply Hpure|].
    apply increasing_per_vehicle_sorted, Hpure.
Qed.

(** What [record_buses] hands back: the records the loop kept, their
    number as record count, and the first clock reading as start of the
    window. *)
Lemma record_buses_result strptime download_duration time_parser
    default_start default_end
    clock net log bus_recs stats clock' net' log' :
  record_buses strptime download_duration time_parser default_start default_end
    clock net log = Ok (bus_recs, stats, clock', net', log') ->
  increasing_per_vehicle bus_recs
  /\ _n_records stats = Z.of_nat (length bus_recs)
  /\ Some (_processing_start_time stats) = head clock.
Proof.
  unfold record_buses. destruct clock as [|time_of_start clock];
    [discriminate|].
  destruct (_record_buses_loop strptime download_duration time_parser
              default_start default_end clock net log time_of_start)
    as [[[[[recs stats0] clock0] net0] log0]| |] eqn:Hloop;
    cbn [mbind outcome_bind]; try discriminate.
  destruct clock0 as [|now clock0]; [discriminate|].
  intros [= <- <- <- <- <-]. cbn. split; [|auto].
  unfold _record_buses_loop in Hloop.
  apply _record_buses_while_stream in Hloop as [stream ->].
  rewrite app_nil_l.
  exact (inv_increasing _ _ _ (valid_buses_inv time_of_start stream)).
Qed.

Lemma is_record_valid_accepts_iff_witness :
  fst (_is_record_valid (snd (valid_buses ∅ sample_stream sample_start))
         (sample_record "1000" 36010 nearby) sample_start) = true /\
  fst (_is_record_valid ∅ (sample_record "1000" 35900 kijowska) sample_start)
    = false /\
  fst (_is_record_valid
         (snd (valid_buses ∅ [sample_record "1000" 35900 kijowska]
                 sample_start))
         (sample_record "1000" 35890 nearby) sample_start) = false.
Proof.
  split; [|split].
  - pose proof (is_record_valid_accepts_iff sample_start sample_stream
                  (sample_record "1000" 36010 nearby)) as H.
    cbv zeta in H. destruct H as [Hiff _]. apply Hiff. split.
    + intros r' Hr' _. vm_compute in Hr'.
      apply list_elem_of_singleton in Hr'. subst r'. vm_compute. reflexivity.
    + vm_compute. reflexivity.
  - pose proof (is_record_valid_accepts_iff sample_start []
                  (sample_record "1000" 35900 kijowska)) as H.
    cbv zeta in H. destruct H as (_ & Hold & _). apply Hold.
    vm_compute. discriminate.
  - pose proof (is_record_valid_accepts_iff sample_start []
                  (sample_record "1000" 35900 kijowska)) as H.
    cbv zeta in H. destruct H as (_ & _ & Hlater).
    destruct (Hlater [] (sample_record "1000" 35890 nearby)) as [_ Hrej].
    + reflexivity.
    + vm_compute. discriminate.
    + exact (f_equal fst (Hrej sample_start)).
Defined.

Lemma accepted_times_strictly_increasing_witness :
  StronglySorted Z.lt [36000 * 1000000; 36010 * 1000000].
Proof.
  destruct accepted_times_strictly_increasing as [_ Hloop].
  destruct (Hloop sample_strptime (20 * 1000000) (mkTimeParser "%H:%M:%S")
              0 1 sample_clock sample_net [] sample_start
              [mkBusRecord "1000" "1" "1" (36000 * 1000000)
                 (mkPosition (float_literal 520 1) (float_literal 210 1));
               mkBusRecord "1000" "1" "1" (36010 * 1000000)
                 (mkPosition (float_literal 520 1) (float_literal 210 1))]
              (mkStats 3 2 0 0 1) [] []
              [RequestingBusData; NewRecords 1; RequestingBusData;
               ApiErrorMessage (AStr "error text");
               RecordParseError ValueError; NewRecords 1]
              "1000"%string) as [_ Hsorted].
  - vm_compute. reflexivity.
  - exact Hsorted.
Defined.

(** ** Fetching a valid response *)

Lemma is_response_json_valid_spec response :
  is_response_json_valid response = true <->
  exists entries, response !! "result"%string = Some (AList entries).
Proof.
  unfold is_response_json_valid.
  destruct (response !! "result"%string) as [v|] eqn:E.
  - rewrite bool_decide_eq_true_2 by (apply elem_of_dom; eauto).
    destruct v; cbn; split; try discriminate; eauto; intros [? [=]].
  - rewrite andb_false_r. split; [discriminate|]. intros [? [=]].
Qed.

(** A response with a ["result"] that is not a list is logged and the
    request is repeated; every attempt is counted. *)
Lemma _download_valid_json_loop_retries bad good net :
  Forall result_not_a_list bad ->
  is_response_json_valid good = true ->
  forall log n,
    _download_valid_json_loop (map Body bad ++ Body good :: net) log n
    = Ok (good, n + Z.of_nat (length bad) + 1, net,
          log ++ map (fun r => ApiErrorMessage (result_of r)) bad).
Proof.
  intros Hbad Hgood. induction Hbad as [|r bad (v & Hv & Hnl) _ IH];
    intros log n; cbn [map app _download_valid_json_loop length].
  - rewrite Hgood, app_nil_r.
    replace (n + 1) with (n + Z.of_nat 0 + 1) by lia. reflexivity.
  - assert (Hinv : is_response_json_valid r = false).
    { apply not_true_is_false. intros Hval.
      apply is_response_json_valid_spec in Hval as [entries He].
      rewrite He in Hv. injection Hv as <-. discriminate. }
    rewrite Hinv. unfold log_api_error. rewrite Hv.
    cbn [mbind outcome_bind]. rewrite IH.
    unfold result_of. rewrite Hv. cbn [default].
    rewrite <- app_assoc. cbn [app].
    replace (n + 1 + Z.of_nat (length bad) + 1)
      with (n + Z.of_nat (S (length bad)) + 1) by lia.
    reflexivity.
Qed.

(** One round of the polling loop counts every attempt as a request and
    the round as one successful request. *)
Lemma _download_current_buses_counts strptime tp default_start default_end
    bad good net log recs stats net' log' :
  Forall result_not_a_list bad ->
  is_response_json_valid good = true ->
  _download_current_buses strptime tp default_start default_end
    (map Body bad ++ Body good :: net) log = Ok (recs, stats, net', log') ->
  _n_requests stats = Z.of_nat (length bad) + 1
  /\ _n_successful_requests stats = 1 /\ net' = net.
Proof.
  intros Hbad Hgood. unfold _download_current_buses, _download_valid_json.
  rewrite (_download_valid_json_loop_retries bad good net Hbad Hgood).
  cbn [mbind outcome_bind].
  destruct (_parse_bus_records strptime tp good _) as [[recs0 log0]| |];
    cbn [mbind outcome_bind]; intros [= <- <- <- <-]. cbn. auto with lia.
Qed.

(** C3, at the failing input: a response without any ["result"] key is
    not retried.  Building the log message looks the key up, KeyError
    escapes from the fetch and ends the polling loop, also when it comes
    after a response that was retried. *)
Theorem missing_result_key_raises :
  (forall net log,
     _download_valid_json (Body ∅ :: net) log = Raise (KeyError "result")) /\
  (forall net log,
     _download_valid_json (Body sample_error :: Body ∅ :: net) log
     = Raise (KeyError "result")) /\
  (forall strptime download_duration time_parser default_start default_end
          now clock net log time_of_start,
     _record_buses_loop strptime download_duration time_parser
       default_start default_end
       (now :: clock) (Body ∅ :: net) log time_of_start
     = if bool_decide (now < time_of_start + download_duration)
       then Raise (KeyError "result")
       else Ok ([], mkStats 0 0 0 default_start default_end,
                clock, Body ∅ :: net, log)).
Proof.
  split; [reflexivity|]. split; [reflexivity|].
  intros. unfold _record_buses_loop. cbn [_record_buses_while].
  destruct (bool_decide (now < time_of_start + download_duration));
    reflexivity.
Qed.

(** ** The polling loop returns *)

Lemma get_bus_record_from_json_complete strptime tp e :
  complete_entry e ->
  (exists r, get_bus_record_from_json strptime tp e = Ok r)
  \/ get_bus_record_from_json strptime tp e = Raise ValueError.
Proof.
  intros ([v Hv] & [l Hl] & [b Hb] & [t Ht] & [lat Hlat] & [lon Hlon]).
  unfold get_bus_record_from_json, parse_to_datetime.
  rewrite Hv, Hl, Hb, Ht, Hlat, Hlon. cbn.
  destruct (strptime t (_time_format tp)); cbn; eauto.
Qed.

Lemma _parse_bus_records_loop_returns strptime tp entries :
  Forall complete_entry entries ->
  forall new_records log,
    exists recs log',
      _parse_bus_records_loop strptime tp entries new_records log
      = Ok (recs, log').
Proof.
  induction 1 as [|e entries He _ IH]; intros new_records log;
    cbn [_parse_bus_records_loop]; [eauto|].
  destruct (get_bus_record_from_json_complete strptime tp e He)
    as [[r ->]| ->]; apply IH.
Qed.

Lemma _download_current_buses_returns strptime tp default_start default_end
    response net log :
  well_formed response ->
  exists recs log',
    _download_current_buses strptime tp default_start default_end
      (Body response :: net) log
    = Ok (recs, mkStats 1 1 0 default_start default_end, net, log').
Proof.
  intros (entries & Hres & Hall).
  unfold _download_current_buses, _download_valid_json.
  cbn [_download_valid_json_loop].
  replace (is_response_json_valid response) with true
    by (symmetry; apply is_response_json_valid_spec; eauto).
  cbn [mbind outcome_bind]. unfold _parse_bus_records. rewrite Hres.
  destruct (_parse_bus_records_loop_returns strptime tp entries Hall [] log)
    as (recs & log' & ->).
  cbn. eauto.
Qed.

(** Fed well-formed responses until the clock passes the deadline, the
    loop returns, having counted one request and one successful request
    per round. *)
Lemma _record_buses_while_returns strptime tp default_start default_end
    time_of_start time_of_end late clock net :
  time_of_end <= late ->
  forall early goods,
    Forall (fun now => now < time_of_end) early ->
    Forall well_formed goods ->
    length goods = length early ->
    forall log stats bus_recs last,
      exists recs stats' log',
        _record_buses_while strptime tp default_start default_end
          (early ++ late :: clock) (map Body goods ++ net) log
          time_of_start time_of_end stats bus_recs last
        = Ok (recs, stats', clock, net, log')
        /\ _n_requests stats' = _n_requests stats + Z.of_nat (length early)
        /\ _n_successful_requests stats'
           = _n_successful_requests stats + Z.of_nat (length early).
Proof.
  intros Hlate early. induction early as [|now early IH];
    intros goods Hearly Hgoods Hlen log stats bus_recs last.
  - destruct goods; [|discriminate]. cbn [app map _record_buses_while].
    rewrite bool_decide_eq_false_2 by lia.
    exists bus_recs, stats, log. cbn. auto with lia.
  - destruct goods as [|good goods]; [discriminate|].
    apply Forall_cons in Hearly as [Hnow Hearly].
    apply Forall_cons in Hgoods as [Hgood Hgoods].
    cbn [app map _record_buses_while].
    rewrite bool_decide_eq_true_2 by exact Hnow.
    destruct (_download_current_buses_returns strptime tp default_start
                default_end
                good (map Body goods ++ net) (log ++ [RequestingBusData])
                Hgood) as (cur & log1 & ->).
    cbn [mbind outcome_bind].
    destruct (valid_buses last cur time_of_start) as [valid last1].
    destruct (IH goods Hearly Hgoods ltac:(cbn in Hlen; lia)
                (log1 ++ [NewRecords (length valid)])
                (add_requests_and_records_info stats
                   (mkStats 1 1 0 default_start default_end))
                (bus_recs ++ valid) last1)
      as (recs & stats' & log' & -> & Hreq & Hsucc).
    exists recs, stats', log'. split; [reflexivity|].
    cbn in Hreq, Hsucc. cbn [length]. lia.
Qed.

(** ** Speeds *)

Lemma get_speed_equal_times gc (rec1 rec2 : BusRecord) :
  _time rec1 = _time rec2 -> get_speed gc rec1 rec2 = Raise ZeroDivisionError.
Proof.
  intros e. unfold get_speed, get_time. rewrite e, Z.sub_diag.
  apply float_truediv_by_zero. reflexivity.
Qed.

Lemma get_speed_distinct_times gc (rec1 rec2 : BusRecord) :
  _time rec1 <> _time rec2 ->
  get_speed gc rec1 rec2
  = Ok (SFdiv prec emax (distance_to gc (_pos rec1) (_pos rec2))
                        (total_seconds (_time rec2 - _time rec1))).
Proof.
  intros ne. unfold get_speed, get_time, get_position.
  apply float_truediv_by_nonzero, total_seconds_not_zero. lia.
Qed.

(** The loop of [get_speeds] after [k] rounds. *)
Lemma get_speeds_rounds gc (recs : list BusRecord) (k : nat) :
  (k <= length recs - 1)%nat ->
  foldl (fun acc _i => _speeds ← acc; get_speeds_step gc recs _speeds _i)
        (Ok [None]) (seq 1 k)
  = if existsb (zero_delta_at recs) (seq 0 k)
    then Raise ZeroDivisionError
    else Ok (map (speed_at gc recs) (seq 0 (S k))).
Proof.
  induction k as [|k IH]; intros Hk; [reflexivity|].
  rewrite seq_S, foldl_app, IH by lia. cbn [foldl].
  replace (existsb (zero_delta_at recs) (seq 0 (S k)))
    with (existsb (zero_delta_at recs) (seq 0 k) || zero_delta_at recs k)
    by (rewrite (seq_S k 0), existsb_app; cbn [existsb];
        rewrite orb_false_r; reflexivity).
  destruct (existsb (zero_delta_at recs) (seq 0 k)); [reflexivity|].
  cbn [orb mbind outcome_bind].
  unfold get_speeds_step, zero_delta_at.
  replace (1 + k - 1)%nat with k by lia. cbn [Nat.add].
  replace (seq 0 (S (S k))) with (seq 0 (S k) ++ [S k])
    by (symmetry; apply seq_S).
  rewrite map_app. cbn [map speed_at].
  destruct (recs !! k) as [prev|] eqn:Hprev;
    [|apply lookup_ge_None in Hprev; lia].
  destruct (recs !! S k) as [rec|] eqn:Hrec;
    [|apply lookup_ge_None in Hrec; lia].
  unfold get_vehicle_number.
  destruct (decide (_vehicle_number prev = _vehicle_number rec)) as [e|ne].
  - rewrite (bool_decide_eq_true_2 _ e). cbn [andb].
    destruct (decide (_time prev = _time rec)) as [et|net].
    + rewrite (bool_decide_eq_true_2 _ et), get_speed_equal_times by exact et.
      reflexivity.
    + rewrite (bool_decide_eq_false_2 _ net),
        get_speed_distinct_times by exact net.
      reflexivity.
  - rewrite (bool_decide_eq_false_2 _ ne). reflexivity.
Qed.

Lemma get_speeds_unfold gc (recs : list BusRecord) :
  get_speeds gc recs
  = if existsb (zero_delta_at recs) (seq 0 (length recs - 1))
    then Raise ZeroDivisionError
    else Ok (map (speed_at gc recs) (seq 0 (S (length recs - 1)))).
Proof. apply get_speeds_rounds. lia. Qed.

Lemma time_ordered_no_zero_delta (recs : list BusRecord) n :
  time_ordered recs -> existsb (zero_delta_at recs) (seq 0 n) = false.
Proof.
  intros Hord. apply not_true_is_false. intros Hex.
  apply existsb_exists in Hex as (i & _ & Hz).
  unfold zero_delta_at in Hz.
  destruct (recs !! i) as [prev|] eqn:Hp; [|discriminate].
  destruct (recs !! S i) as [rec|] eqn:Hr; [|discriminate].
  apply andb_true_iff in Hz as [Hv Ht].
  apply bool_decide_eq_true in Hv, Ht.
  specialize (Hord i prev rec Hp Hr Hv). lia.
Qed.

(** C4: on a list where neighbouring records of one vehicle have strictly
    increasing times, [get_speeds] returns; and whenever it returns,
    entry 0 of its result is None and entry i > 0 is, when records i-1
    and i belong to the same vehicle, the great-circle distance from the
    latitude and longitude of record i-1 to those of record i, divided
    by the seconds elapsed between the two records, and None
    otherwise. *)
Theorem get_speeds_values gc (recs : list BusRecord) :
  (time_ordered recs -> exists speeds, get_speeds gc recs = Ok speeds) /\
  (forall speeds,
     get_speeds gc recs = Ok speeds ->
     speeds !! 0%nat = Some None /\
     forall (i : nat) prev rec,
       recs !! i = Some prev -> recs !! S i = Some rec ->
       speeds !! S i
       = Some (if decide (_vehicle_number prev = _vehicle_number rec)
               then Some (SFdiv prec emax
                            (gc [_lat (_pos prev); _lon (_pos prev)]
                                [_lat (_pos rec); _lon (_pos rec)])
                            (long_true_divide (_time rec - _time prev)
                                              1000000))
               else None)).
Proof.
  rewrite get_speeds_unfold. split.
  - intros Hord. rewrite time_ordered_no_zero_delta by exact Hord. eauto.
  - intros speeds Hs.
    destruct (existsb (zero_delta_at recs) (seq 0 (length recs - 1)));
      [discriminate|].
    injection Hs as <-. cbn [seq map]. split; [reflexivity|].
    intros i prev rec Hp Hr.
    assert (Hi : (S i < length recs)%nat) by (eapply lookup_lt_Some; exact Hr).
    rewrite lookup_cons, list_lookup_fmap, lookup_seq_lt by lia.
    cbn [fmap option_fmap option_map Nat.add speed_at].
    rewrite Hp, Hr. reflexivity.
Qed.

Lemma get_speeds_values_witness :
  exists speeds,
    get_speeds sample_great_circle_m
      [sample_record "1000" 36000 kijowska;
       sample_record "1000" 36010 nearby;
       sample_record "2000" 36010 nearby] = Ok speeds /\
    speeds !! 0%nat = Some None /\
    speeds !! 2%nat = Some None /\
    speeds !! 1%nat = Some (Some (S754_finite false 5367671510877900 (-48))) /\
    sample_great_circle_m
      [float_literal 52248455 6; float_literal 21044827 6]
      [float_literal 52249000 6; float_literal 21046000 6]
    = S754_finite false 6709589388597375 (-45) /\
    SFltb (float_literal 19069 3)
          (S754_finite false 5367671510877900 (-48)) = true /\
    SFltb (S754_finite false 5367671510877900 (-48))
          (float_literal 19070 3) = true.
Proof.
  destruct (get_speeds_values sample_great_circle_m
              [sample_record "1000" 36000 kijowska;
               sample_record "1000" 36010 nearby;
               sample_record "2000" 36010 nearby]) as [Hret Hval].
  destruct Hret as [speeds Hs].
  - intros i prev rec Hp Hr Hv.
    destruct i as [|[|i]]; cbn in Hp, Hr; simplify_eq; cbn in *;
      try discriminate; lia.
  - destruct (Hval speeds Hs) as [H0 Hi].
    exists speeds. split; [exact Hs|]. split; [exact H0|]. split.
    + rewrite (Hi 1%nat _ _ eq_refl eq_refl). reflexivity.
    + split.
      * rewrite (Hi 0%nat _ _ eq_refl eq_refl). vm_compute. reflexivity.
      * vm_compute. repeat split.
Defined.

(** C8 as amended: a pair of records with equal times makes [get_speed]
    raise ZeroDivisionError, no value is produced; [get_speeds] has no
    guard and raises as well as soon as two neighbouring records of one
    vehicle share their time. *)
Theorem get_speed_zero_delta_raises gc :
  (forall rec1 rec2 : BusRecord,
     _time rec1 = _time rec2 ->
     get_speed gc rec1 rec2 = Raise ZeroDivisionError) /\
  (forall (recs : list BusRecord) (i : nat) prev rec,
     recs !! i = Some prev -> recs !! S i = Some rec ->
     _vehicle_number prev = _vehicle_number rec ->
     _time prev = _time rec ->
     get_speeds gc recs = Raise ZeroDivisionError).
Proof.
  split; [apply get_speed_equal_times|].
  intros recs i prev rec Hp Hr Hv Ht.
  assert (Hi : (S i < length recs)%nat) by (eapply lookup_lt_Some; exact Hr).
  rewrite get_speeds_unfold.
  replace (existsb (zero_delta_at recs) (seq 0 (length recs - 1))) with true;
    [reflexivity|].
  symmetry. apply existsb_exists. exists i. split.
  - apply in_seq. lia.
  - unfold zero_delta_at. rewrite Hp, Hr.
    rewrite !bool_decide_eq_true_2 by assumption. reflexivity.
Qed.

Lemma get_speed_zero_delta_raises_witness :
  get_speed sample_great_circle_m
    (sample_record "1000" 36000 kijowska)
    (sample_record "1000" 36000 nearby) = Raise ZeroDivisionError /\
  get_speeds sample_great_circle_m
    [sample_record "1000" 35990 kijowska;
     sample_record "1000" 36000 kijowska;
     sample_record "1000" 36000 nearby] = Raise ZeroDivisionError.
Proof.
  destruct (get_speed_zero_delta_raises sample_great_circle_m) as [H1 H2].
  split.
  - apply H1. reflexivity.
  - apply (H2 _ 1%nat (sample_record "1000" 36000 kijowska)
                      (sample_record "1000" 36000 nearby));
      reflexivity.
Defined.

(** C8 as stated fails: dividing by the zero time delta yields no value,
    finite or not. *)
Lemma get_speed_zero_delta_no_value :
  ~ exists v,
      get_speed sample_great_circle_m
        (sample_record "1000" 36000 kijowska)
        (sample_record "1000" 36000 nearby) = Ok v.
Proof. intros [v Hv]. vm_compute in Hv. discriminate. Qed.

(** C10: on the empty list [get_speeds] returns the one-element list
    [None]; whenever it returns, its result has max(1, n) entries for n
    input records and starts with None; it fails to return only by
    ZeroDivisionError, on an input that is not time-ordered. *)
Theorem get_speeds_length gc :
  get_speeds gc [] = Ok [None] /\
  forall recs : list BusRecord,
    match get_speeds gc recs with
    | Ok speeds =>
        length speeds = Nat.max 1 (length recs) /\ speeds !! 0%nat = Some None
    | Raise e => e = ZeroDivisionError /\ ~ time_ordered recs
    | Pending => False
    end.
Proof.
  split; [reflexivity|].
  intros recs. rewrite get_speeds_unfold.
  destruct (existsb (zero_delta_at recs) (seq 0 (length recs - 1))) eqn:Hex.
  - split; [reflexivity|]. intros Hord.
    rewrite time_ordered_no_zero_delta in Hex by exact Hord. discriminate.
  - split; [|reflexivity].
    rewrite length_map, length_seq. lia.
Qed.

(** ** The speed summary *)

Lemma breaches_spec set min_speed max_speed (rec : BusRecord) speed :
  breaches set min_speed max_speed rec speed = true <->
  (_vehicle_number rec ∉ set) /\
  exists s, speed = Some s /\ in_band min_speed max_speed s.
Proof.
  unfold breaches, in_band, get_vehicle_number.
  rewrite andb_true_iff, bool_decide_eq_true.
  destruct speed as [s|].
  - rewrite andb_true_iff. split.
    + intros (Hn & Hmin & Hmax). split; [exact Hn|].
      exists s. split; [reflexivity|]. split; [exact Hmin|].
      intros m ->. exact Hmax.
    + intros (Hn & s' & [= <-] & Hmin & Hmax). split; [exact Hn|].
      split; [exact Hmin|]. destruct max_speed as [m|]; auto.
  - split; [intros [_ ?]; discriminate|].
    intros (_ & s & ? & _). discriminate.
Qed.

(** The loop of [print_bus_speed_info], started from any set. *)
Lemma speeding_fold_spec min_speed max_speed
    (bus_speeds : list (BusRecord * option float)) :
  forall (acc : gset string) v,
    v ∈ foldl (fun speeding_bus_vehicle_nums '(_rec, speed) =>
                 if breaches speeding_bus_vehicle_nums min_speed max_speed
                             _rec speed
                 then {[get_vehicle_number _rec]} ∪ speeding_bus_vehicle_nums
                 else speeding_bus_vehicle_nums) acc bus_speeds
    <-> v ∈ acc \/
        exists rec s, (rec, Some s) ∈ bus_speeds /\ _vehicle_number rec = v
                      /\ in_band min_speed max_speed s.
Proof.
  induction bus_speeds as [|[rec speed] l IH]; intros acc v; cbn [foldl].
  - split; [auto|]. intros [H|(rec & s & H & _)]; [exact H|inversion H].
  - rewrite IH. clear IH.
    destruct (breaches acc min_speed max_speed rec speed) eqn:Hb.
    + apply breaches_spec in Hb as (Hn & s & -> & Hband).
      unfold get_vehicle_number. rewrite elem_of_union, elem_of_singleton.
      split.
      * intros [[->|H]|(rec' & s' & H & Hv & Hs)]; auto.
        -- right. exists rec, s. rewrite elem_of_cons. auto.
        -- right. exists rec', s'. rewrite elem_of_cons. auto.
      * intros [H|(rec' & s' & H & Hv & Hs)]; auto.
        apply elem_of_cons in H as [Heq|H]; [simplify_eq; auto|].
        right. exists rec', s'. auto.
    + split.
      * intros [H|(rec' & s' & H & Hv & Hs)]; auto.
        right. exists rec', s'. rewrite elem_of_cons. auto.
      * intros [H|(rec' & s' & H & Hv & Hs)]; auto.
        apply elem_of_cons in H as [Heq|H].
        -- simplify_eq.
           destruct (decide (_vehicle_number rec ∈ acc)) as [Hin|Hn];
             [left; exact Hin|].
           exfalso. apply not_true_iff_false in Hb. apply Hb.
           apply breaches_spec. split; [exact Hn|]. exists s'. auto.
        -- right. exists rec', s'. auto.
Qed.

Lemma speeding_vehicles_spec bus_speeds min_speed max_speed v :
  v ∈ speeding_vehicles bus_speeds min_speed max_speed <->
  exists rec s, (rec, Some s) ∈ bus_speeds /\ _vehicle_number rec = v
                /\ in_band min_speed max_speed s.
Proof.
  unfold speeding_vehicles. rewrite speeding_fold_spec.
  split; [intros [H|H]; [set_solver|exact H]|auto].
Qed.

Lemma vehicles_of_spec bus_speeds v :
  v ∈ vehicles_of bus_speeds <->
  exists rec speed, (rec, speed) ∈ bus_speeds /\ _vehicle_number rec = v.
Proof.
  unfold vehicles_of. rewrite elem_of_list_to_set, list_elem_of_In, in_map_iff.
  split.
  - intros ([rec speed] & Hv & Hin). exists rec, speed.
    apply list_elem_of_In in Hin. auto.
  - intros (rec & speed & Hin & Hv). exists (rec, speed).
    apply list_elem_of_In in Hin. auto.
Qed.

Lemma speeding_subset_vehicles bus_speeds min_speed max_speed :
  speeding_vehicles bus_speeds min_speed max_speed ⊆ vehicles_of bus_speeds.
Proof.
  intros v Hv. apply speeding_vehicles_spec in Hv as (rec & s & H & Hv & _).
  apply vehicles_of_spec. eauto.
Qed.

(** C7 as amended: on a non-empty input the summary reports the number
    of vehicles that have at least one sample with a speed strictly
    above min and, when max is given, strictly below max, together with
    that number divided by the number of distinct vehicles of the input,
    times 100; samples without a speed never count.  On the empty input
    it reports only that there are no such buses. *)
Theorem print_bus_speed_info_counts
    (bus_speeds : list (BusRecord * option float)) (speed_type : string)
    (min_speed : float) (max_speed : option float) :
  print_bus_speed_info [] speed_type min_speed max_speed
    = Ok (NoBuses speed_type) /\
  (bus_speeds <> [] ->
   exists (speeding : gset VehicleNumberType) (ratio : float),
     (forall v, v ∈ speeding <->
        exists rec s, (rec, Some s) ∈ bus_speeds /\ _vehicle_number rec = v
                      /\ SFltb min_speed s = true
                      /\ forall m, max_speed = Some m -> SFltb s m = true) /\
     int_truediv (Z.of_nat (size speeding))
                 (Z.of_nat (size (vehicles_of bus_speeds))) = Ok ratio /\
     print_bus_speed_info bus_speeds speed_type min_speed max_speed
     = Ok (SpeedInfo (Z.of_nat (size speeding))
                     (float_mul ratio (float_of_int 100))
                     (float_mul min_speed (float_literal 36 1)))).
Proof.
  split; [reflexivity|]. intros Hne.
  set (speeding := speeding_vehicles bus_speeds min_speed max_speed).
  assert (Hsub : speeding ⊆ vehicles_of bus_speeds)
    by apply speeding_subset_vehicles.
  assert (Hpos : (0 < size (vehicles_of bus_speeds))%nat).
  { destruct bus_speeds as [|[rec speed] l]; [congruence|].
    assert (Hin : _vehicle_number rec ∈ vehicles_of ((rec, speed) :: l)).
    { apply vehicles_of_spec. exists rec, speed. split; [left|reflexivity]. }
    assert (Hsz : size (vehicles_of ((rec, speed) :: l)) <> 0%nat); [|lia].
    apply size_non_empty_iff. intros Hemp. apply Hemp in Hin.
    exact (not_elem_of_empty _ Hin). }
  apply subseteq_size in Hsub.
  destruct (int_truediv_fraction (Z.of_nat (size speeding))
              (Z.of_nat (size (vehicles_of bus_speeds))))
    as [ratio Hratio]; [lia|lia|].
  exists speeding, ratio. split; [|split; [exact Hratio|]].
  - intros v. apply speeding_vehicles_spec.
  - destruct bus_speeds as [|p l]; [congruence|].
    unfold print_bus_speed_info. fold speeding.
    fold (vehicles_of (p :: l)). rewrite Hratio. reflexivity.
Qed.

Lemma print_bus_speed_info_counts_witness :
  exists n pct kmh,
    print_bus_speed_info
      [(sample_record "1000" 36000 kijowska, None);
       (sample_record "1000" 36010 nearby, Some (float_of_int 15));
       (sample_record "2000" 36010 nearby, Some (float_of_int 10))]
      "speeding" (float_of_int 10) (Some (float_of_int 20))
    = Ok (SpeedInfo n pct kmh).
Proof.
  destruct (print_bus_speed_info_counts
              [(sample_record "1000" 36000 kijowska, None);
               (sample_record "1000" 36010 nearby, Some (float_of_int 15));
               (sample_record "2000" 36010 nearby, Some (float_of_int 10))]
              "speeding" (float_of_int 10) (Some (float_of_int 20)))
    as [_ H].
  destruct H as (speeding & ratio & _ & _ & Hprint); [discriminate|].
  rewrite Hprint. eauto.
Defined.

(** C7 as stated fails at the lower end of the band: a vehicle whose only
    sample has exactly the speed min lies in [min, max) and is not
    counted. *)
Lemma print_bus_speed_info_excludes_min :
  SFleb (float_of_int 10) (float_of_int 10) = true /\
  SFltb (float_of_int 10) (float_of_int 20) = true /\
  print_bus_speed_info
    [(sample_record "1000" 36010 nearby, Some (float_of_int 10))]
    "speeding" (float_of_int 10) (Some (float_of_int 20))
  = Ok (SpeedInfo 0 (S754_zero false) (float_of_int 36)).
Proof. vm_compute. auto. Qed.

(** ** Hotspots *)

Lemma elem_of_members gc seed bus_speeds visited k :
  k ∈ members gc seed bus_speeds visited <->
  (k ∉ visited) /\
  exists rec speed, (rec, speed) ∈ bus_speeds /\ record_key rec = k
                    /\ within_100m gc seed rec = true.
Proof.
  unfold members.
  rewrite elem_of_list_to_set, list_elem_of_In, in_map_iff. split.
  - intros ([rec speed] & Hk & Hin).
    apply list_elem_of_In, list_elem_of_filter in Hin as [[Hn Hw] Hin].
    cbn [fst] in *. subst k. eauto 6.
  - intros (Hn & rec & speed & Hin & Hk & Hw). exists (rec, speed).
    split; [exact Hk|]. apply list_elem_of_In, list_elem_of_filter.
    cbn [fst]. subst k. auto.
Qed.

Lemma members_cons_in gc seed rec2 speed2 l visited :
  record_key rec2 ∉ visited -> within_100m gc seed rec2 = true ->
  members gc seed ((rec2, speed2) :: l) visited
  = {[record_key rec2]} ∪ members gc seed l ({[record_key rec2]} ∪ visited)
  /\ record_key rec2 ∉ members gc seed l ({[record_key rec2]} ∪ visited).
Proof.
  intros Hn Hw. split.
  - apply set_eq. intros k.
    rewrite elem_of_union, elem_of_singleton, !elem_of_members.
    split.
    + intros (Hk & rec & speed & Hin & Hkey & Hwk).
      destruct (decide (k = record_key rec2)) as [->|Hne]; [auto|].
      right. split; [rewrite not_elem_of_union, not_elem_of_singleton; auto|].
      apply elem_of_cons in Hin as [Heq|Hin]; [simplify_eq|eauto 6].
    + intros [->|(Hk & rec & speed & Hin & Hkey & Hwk)].
      * split; [exact Hn|]. exists rec2, speed2. split; [left|auto].
      * apply not_elem_of_union in Hk as [_ Hk].
        split; [exact Hk|]. exists rec, speed. split; [right; exact Hin|auto].
  - rewrite elem_of_members, not_elem_of_union, not_elem_of_singleton.
    intros [[Hne _] _]. exact (Hne eq_refl).
Qed.

Lemma members_cons_out gc seed rec2 speed2 l visited :
  ~ ((record_key rec2 ∉ visited) /\ within_100m gc seed rec2 = true) ->
  members gc seed ((rec2, speed2) :: l) visited = members gc seed l visited.
Proof.
  intros Hout. unfold members. rewrite filter_cons_False; [reflexivity|].
  exact Hout.
Qed.

Lemma scan_vicinity_cons gc rec rec2 speed2 l visited n :
  scan_vicinity gc rec ((rec2, speed2) :: l) visited n
  = if bool_decide (record_key rec2 ∉ visited) && within_100m gc rec rec2
    then scan_vicinity gc rec l ({[record_key rec2]} ∪ visited) (n + 1)
    else scan_vicinity gc rec l visited n.
Proof.
  unfold scan_vicinity, within_100m, get_position. cbn [foldl].
  destruct (bool_decide (record_key rec2 ∉ visited)
            && SFltb (distance_to gc (_pos rec) (_pos rec2))
                     (float_of_int 100)); reflexivity.
Qed.

(** The inner loop collects exactly the members. *)
Lemma scan_vicinity_members gc rec l : forall visited n,
  scan_vicinity gc rec l visited n
  = (members gc rec l visited ∪ visited,
     n + Z.of_nat (size (members gc rec l visited))).
Proof.
  induction l as [|[rec2 speed2] l IH]; intros visited n.
  - change (members gc rec [] visited) with (∅ : gset (string * Z)).
    rewrite union_empty_l_L, size_empty, Z.add_0_r. reflexivity.
  - rewrite scan_vicinity_cons.
    destruct (decide (record_key rec2 ∉ visited)) as [Hn|Hin].
    + rewrite (bool_decide_eq_true_2 _ Hn). cbn [andb].
      destruct (within_100m gc rec rec2) eqn:Hw.
      * rewrite IH.
        destruct (members_cons_in gc rec rec2 speed2 l visited Hn Hw)
          as [-> Hfresh].
        rewrite size_union by (apply disjoint_singleton_l; exact Hfresh).
        rewrite size_singleton. f_equal; [|lia].
        apply set_eq. intros k. rewrite !elem_of_union. tauto.
      * rewrite IH, members_cons_out; [reflexivity|].
        intros [_ ?]. congruence.
    + rewrite (bool_decide_eq_false_2 _ Hin). cbn [andb].
      rewrite IH, members_cons_out; [reflexivity|]. tauto.
Qed.

Lemma get_positions_of_interest_fold gc bus_speeds todo :
  forall pos_speeds visited,
    fst (foldl (fun '(pos_speeds, visited) '(rec, speed) =>
                  if bool_decide (record_key rec ∈ visited)
                  then (pos_speeds, visited)
                  else
                    let visited := {[record_key rec]} ∪ visited in
                    let '(visited, n_buses_in_vicinity) :=
                      scan_vicinity gc rec bus_speeds visited 1 in
                    (pos_speeds ++ [(get_position rec, n_buses_in_vicinity)],
                     visited))
               (pos_speeds, visited) todo)
    = pos_speeds ++ clusters gc bus_speeds todo visited.
Proof.
  induction todo as [|[rec speed] todo IH]; intros pos_speeds visited.
  - cbn. rewrite app_nil_r. reflexivity.
  - cbn [foldl clusters].
    destruct (decide (record_key rec ∈ visited)) as [Hin|Hn].
    + rewrite (bool_decide_eq_true_2 _ Hin). apply IH.
    + rewrite (bool_decide_eq_false_2 _ Hn), scan_vicinity_members.
      rewrite IH, <- app_assoc. reflexivity.
Qed.

Lemma get_positions_of_interest_clusters gc bus_speeds :
  get_positions_of_interest gc bus_speeds
  = clusters gc bus_speeds bus_speeds ∅.
Proof.
  unfold get_positions_of_interest.
  rewrite get_positions_of_interest_fold. reflexivity.
Qed.

Lemma three_close gc r1 r2 r3 (s1 s2 s3 : option float) :
     record_key r1 <> record_key r2 ->
     record_key r1 <> record_key r3 ->
     record_key r2 <> record_key r3 ->
     within_100m gc r1 r2 = true ->
     within_100m gc r1 r3 = true ->
     get_positions_of_interest gc [(r1, s1); (r2, s2); (r3, s3)]
     = [(_pos r1, 3)].
Proof.
  intros H12 H13 H23 W2 W3.
  unfold get_positions_of_interest. cbn [foldl].
  next_test. rewrite !scan_vicinity_cons, W2, W3.
  change (scan_vicinity gc r1 [] ?v ?n) with (v, n).
  repeat (next_test; cbn [andb fst snd]).
  reflexivity.
Qed.

Lemma seed_links_only gc r1 r2 r3 (s1 s2 s3 : option float) :
     record_key r1 <> record_key r2 ->
     record_key r1 <> record_key r3 ->
     record_key r2 <> record_key r3 ->
     within_100m gc r1 r2 = true ->
     within_100m gc r1 r3 = false ->
     get_positions_of_interest gc [(r1, s1); (r2, s2); (r3, s3)]
     = [(_pos r1, 2); (_pos r3, 1)].
Proof.
  intros H12 H13 H23 W2 W3.
  unfold get_positions_of_interest. cbn [foldl].
  next_test. rewrite !scan_vicinity_cons, W2, W3.
  change (scan_vicinity gc r1 [] ?v ?n) with (v, n).
  repeat (next_test; cbn [andb fst snd]).
  rewrite !scan_vicinity_cons.
  change (scan_vicinity gc r3 [] ?v ?n) with (v, n).
  repeat (next_test; cbn [andb fst snd]).
  reflexivity.
Qed.

(** C5: the hotspots are the clusters of the greedy pass: records are
    taken in input order, a record not yet visited seeds a cluster, the
    cluster takes every record not yet visited that lies less than 100 m
    from the seed, and is reported as the seed's position with the
    number of its records.  Three distinct records of which the second
    and the third lie less than 100 m from the first give one cluster of
    three; when the third lies 100 m or more from the first it is left
    out, however close it is to the second, and seeds its own cluster. *)
Theorem get_positions_of_interest_greedy gc :
  (forall bus_speeds,
     get_positions_of_interest gc bus_speeds
     = clusters gc bus_speeds bus_speeds ∅) /\
  (forall r1 r2 r3 (s1 s2 s3 : option float),
     record_key r1 <> record_key r2 ->
     record_key r1 <> record_key r3 ->
     record_key r2 <> record_key r3 ->
     within_100m gc r1 r2 = true ->
     (within_100m gc r1 r3 = true ->
      get_positions_of_interest gc [(r1, s1); (r2, s2); (r3, s3)]
      = [(_pos r1, 3)]) /\
     (within_100m gc r1 r3 = false ->
      get_positions_of_interest gc [(r1, s1); (r2, s2); (r3, s3)]
      = [(_pos r1, 2); (_pos r3, 1)])).
Proof.
  split; [apply get_positions_of_interest_clusters|].
  intros r1 r2 r3 s1 s2 s3 H12 H13 H23 W2.
  split; intros W3;
    [apply three_close|apply seed_links_only]; assumption.
Qed.

Lemma get_positions_of_interest_greedy_witness :
  get_positions_of_interest sample_great_circle_m
    [(sample_record "1000" 36000 kijowska, None);
     (sample_record "2000" 36000 close_by, Some (float_of_int 15));
     (sample_record "3000" 36000 across_the_street, Some (float_of_int 16))]
  = [(kijowska, 3)] /\
  within_100m sample_great_circle_m
    (sample_record "2000" 36000 halfway)
    (sample_record "3000" 36000 further_on) = true /\
  get_positions_of_interest sample_great_circle_m
    [(sample_record "1000" 36000 kijowska, None);
     (sample_record "2000" 36000 halfway, Some (float_of_int 15));
     (sample_record "3000" 36000 further_on, Some (float_of_int 16))]
  = [(kijowska, 2); (further_on, 1)].
Proof.
  destruct (get_positions_of_interest_greedy sample_great_circle_m)
    as [_ H].
  split.
  - apply (H (sample_record "1000" 36000 kijowska)
             (sample_record "2000" 36000 close_by)
             (sample_record "3000" 36000 across_the_street));
      try discriminate; vm_compute; reflexivity.
  - split; [vm_compute; reflexivity|].
    apply (H (sample_record "1000" 36000 kijowska)
             (sample_record "2000" 36000 halfway)
             (sample_record "3000" 36000 further_on));
      try discriminate; vm_compute; reflexivity.
Defined.

(** * Further properties of the recorder *)

(** ** The fetch loop *)

Lemma _download_valid_json_loop_inv net : forall log n good n' net' log',
  _download_valid_json_loop net log n = Ok (good, n', net', log') ->
  exists bad,
    Forall result_not_a_list bad /\ is_response_json_valid good = true /\
    net = map Body bad ++ Body good :: net' /\
    n' = n + Z.of_nat (length bad) + 1 /\
    log' = log ++ map (fun r => ApiErrorMessage (result_of r)) bad.
Proof.
  induction net as [|[|response] net IH]; intros log n good n' net' log' Hrun;
    cbn [_download_valid_json_loop] in Hrun; try discriminate.
  destruct (is_response_json_valid response) eqn:Hvalid.
  - injection Hrun as <- <- <- <-. exists []. cbn.
    rewrite app_nil_r. repeat split; [constructor|exact Hvalid|lia].
  - unfold log_api_error in Hrun.
    destruct (response !! "result"%string) as [v|] eqn:Hv; [|discriminate].
    cbn [mbind outcome_bind] in Hrun.
    apply IH in Hrun as (bad & Hbad & Hgood & -> & -> & ->).
    exists (response :: bad). cbn [map app length].
    assert (Hnl : isinstance_list v = false).
    { apply not_true_is_false. intros Hl. destruct v; try discriminate.
      rewrite (proj2 (is_response_json_valid_spec response)) in Hvalid
        by eauto. discriminate. }
    split; [constructor; [exists v; auto|exact Hbad]|].
    split; [exact Hgood|]. split; [reflexivity|]. split; [lia|].
    unfold result_of at 2. rewrite Hv. cbn [default].
    rewrite <- app_assoc. reflexivity.
Qed.

(** X1: [_download_valid_json] hands back a response exactly when the
    network answered some responses whose ["result"] is present but not
    a list, then one with a list; it returns that one, has counted every
    attempt, leaves the later answers unread and has logged each
    rejected ["result"] in turn. *)
Theorem _download_valid_json_returns_iff net log good n net' log' :
  _download_valid_json net log = Ok (good, n, net', log') <->
  exists bad,
    Forall result_not_a_list bad /\ is_response_json_valid good = true /\
    net = map Body bad ++ Body good :: net' /\
    n = Z.of_nat (length bad) + 1 /\
    log' = log ++ map (fun r => ApiErrorMessage (result_of r)) bad.
Proof.
  unfold _download_valid_json. split.
  - intros Hrun.
    apply _download_valid_json_loop_inv in Hrun
      as (bad & Hbad & Hgood & Hnet & Hn & Hlog).
    exists bad. auto.
  - intros (bad & Hbad & Hgood & -> & -> & ->).
    apply (_download_valid_json_loop_retries bad good net' Hbad Hgood).
Qed.

Lemma _download_valid_json_returns_iff_witness :
  _download_valid_json
    [Body sample_error; Body sample_error; Body (sample_response [])] []
  = Ok (sample_response [], 3, [],
        [ApiErrorMessage (AStr "error text");
         ApiErrorMessage (AStr "error text")]).
Proof.
  apply _download_valid_json_returns_iff.
  exists [sample_error; sample_error].
  split; [|split; [|split; [|split]]]; try reflexivity.
  repeat constructor; exists (AStr "error text"); split; reflexivity.
Defined.

(** ** Parsing a snapshot *)

Lemma get_bus_record_from_json_missing strptime tp e k :
  missing_key strptime tp e = Some k ->
  get_bus_record_from_json strptime tp e = Raise (KeyError k).
Proof.
  unfold missing_key, get_bus_record_from_json, parse_to_datetime.
  destruct e as [[v|] [l|] [b|] [t|] lat lon]; cbn;
    try (intros [= <-]; reflexivity).
  destruct (strptime t (_time_format tp)); [|discriminate].
  destruct lat, lon; cbn; try discriminate; intros [= <-]; reflexivity.
Qed.

Lemma get_bus_record_from_json_present strptime tp e :
  missing_key strptime tp e = None ->
  match record_of_entry strptime tp e with
  | Some r =>
      get_bus_record_from_json strptime tp e = Ok r /\
      VehicleNumber e = Some (_vehicle_number r) /\
      Lines e = Some (_line r) /\ Brigade e = Some (_brigade r) /\
      (exists t, Time e = Some t
                 /\ strptime t (_time_format tp) = Some (_time r)) /\
      Lat e = Some (_lat (_pos r)) /\ Lon e = Some (_lon (_pos r))
  | None => get_bus_record_from_json strptime tp e = Raise ValueError
  end.
Proof.
  unfold missing_key, record_of_entry, get_bus_record_from_json,
    parse_to_datetime.
  destruct e as [[v|] [l|] [b|] [t|] lat lon]; cbn; try discriminate.
  destruct (strptime t (_time_format tp)) as [time|] eqn:Ht; cbn;
    [|reflexivity].
  destruct lat, lon; cbn; try discriminate. intros _.
  repeat split; eauto.
Qed.





Lemma _parse_bus_records_loop_missing strptime tp pre e post k :
  Forall (fun e => missing_key strptime tp e = None) pre ->
  missing_key strptime tp e = Some k ->
  forall new_records log,
    _parse_bus_records_loop strptime tp (pre ++ e :: post) new_records log
    = Raise (KeyError k).
Proof.
  intros Hpre Hk. induction Hpre as [|e0 pre He0 _ IH];
    intros new_records log; cbn [app _parse_bus_records_loop].
  - rewrite (get_bus_record_from_json_missing strptime tp e k Hk).
    reflexivity.
  - pose proof (get_bus_record_from_json_present strptime tp e0 He0) as Hcase.
    destruct (record_of_entry strptime tp e0) as [r|].
    + destruct Hcase as [-> _]. apply IH.
    + rewrite Hcase. apply IH.
Qed.

(** X3: an entry that lacks a key which is looked up is not left out
    like an entry with an unreadable time: KeyError for that key escapes
    from [_parse_bus_records], and a round of the polling loop that
    fetches such a snapshot ends the loop with it, whatever was recorded
    before. *)
Theorem missing_entry_key_aborts strptime tp pre e post k response :
  response !! "result"%string = Some (AList (pre ++ e :: post)) ->
  Forall (fun e => missing_key strptime tp e = None) pre ->
  missing_key strptime tp e = Some k ->
  (forall log,
     _parse_bus_records strptime tp response log = Raise (KeyError k)) /\
  (forall default_start default_end now clock net log
          time_of_start time_of_end stats bus_recs last,
     now < time_of_end ->
     _record_buses_while strptime tp default_start default_end (now :: clock)
       (Body response :: net) log time_of_start time_of_end
       stats bus_recs last = Raise (KeyError k)).
Proof.
  intros Hres Hpre Hk.
  assert (Hparse : forall log,
            _parse_bus_records strptime tp response log = Raise (KeyError k)).
  { intros log. unfold _parse_bus_records. rewrite Hres.
    apply _parse_bus_records_loop_missing; assumption. }
  split; [exact Hparse|].
  intros dts dte now clock net log S E stats bus_recs last Hnow.
  cbn [_record_buses_while]. rewrite bool_decide_eq_true_2 by exact Hnow.
  unfold _download_current_buses, _download_valid_json.
  cbn [_download_valid_json_loop].
  replace (is_response_json_valid response) with true
    by (symmetry; apply is_response_json_valid_spec; eauto).
  cbn [mbind outcome_bind]. rewrite Hparse. reflexivity.
Qed.

Lemma missing_entry_key_aborts_witness :
  _parse_bus_records sample_strptime (mkTimeParser "%H:%M:%S")
    (sample_response
       [sample_entry "1000" "10:00:00";
        mkBusRecordJson (Some "2000"%string) (Some "1"%string)
          (Some "1"%string) (Some "10:00:10"%string)
          None (Some (float_literal 210 1))]) []
  = Raise (KeyError "Lat").
Proof.
  destruct (missing_entry_key_aborts sample_strptime
              (mkTimeParser "%H:%M:%S")
              [sample_entry "1000" "10:00:00"]
              (mkBusRecordJson (Some "2000"%string) (Some "1"%string)
                 (Some "1"%string) (Some "10:00:10"%string)
                 None (Some (float_literal 210 1)))
              [] "Lat"%string
              (sample_response
                 [sample_entry "1000" "10:00:00";
                  mkBusRecordJson (Some "2000"%string) (Some "1"%string)
                    (Some "1"%string) (Some "10:00:10"%string)
                    None (Some (float_literal 210 1))]))
    as [Hparse _].
  - reflexivity.
  - repeat constructor.
  - reflexivity.
  - apply Hparse.
Defined.

(** ** The check against everything fetched *)

Lemma holds_latest_step seen last (r : BusRecord) S :
  holds_latest seen last ->
  holds_latest (seen ++ [r]) (snd (_is_record_valid last r S)).
Proof.
  intros Hl v. specialize (Hl v). rewrite _is_record_valid_unfold.
  assert (Hin : forall r0, r0 ∈ seen ++ [r] <-> r0 ∈ seen \/ r0 = r)
    by (intros r0; rewrite elem_of_app, list_elem_of_singleton; tauto).
  destruct (decide (_vehicle_number r = v)) as [e|ne].
  - subst v. destruct (last !! _vehicle_number r) as [t|] eqn:E.
    + destruct Hl as [(r0 & H0 & Hv0 & Ht0) Hmax].
      destruct (decide (_time r <= t)); cbn [snd].
      * rewrite E. split.
        -- exists r0. rewrite Hin. auto.
        -- intros r1 [H1| ->]%Hin Hv1; [auto|lia].
      * rewrite lookup_insert_eq. split.
        -- exists r. rewrite Hin. auto.
        -- intros r1 [H1| ->]%Hin Hv1; [|lia].
           specialize (Hmax r1 H1 Hv1). lia.
    + cbn [snd]. rewrite lookup_insert_eq. split.
      * exists r. rewrite Hin. auto.
      * intros r1 [H1| ->]%Hin Hv1; [|lia]. destruct (Hl r1 H1 Hv1).
  - assert (Hsame : snd (match last !! _vehicle_number r with
                         | Some t =>
                             if decide (_time r <= t) then (false, last)
                             else (bool_decide (_time r > S),
                                   <[_vehicle_number r := _time r]> last)
                         | None => (bool_decide (_time r > S),
                                    <[_vehicle_number r := _time r]> last)
                         end) !! v = last !! v).
    { destruct (last !! _vehicle_number r) as [t|];
        [destruct (decide (_time r <= t))|]; cbn [snd];
        rewrite ?lookup_insert_ne by exact ne; reflexivity. }
    rewrite Hsame. destruct (last !! v) as [t|].
    + destruct Hl as [(r0 & H0 & Hv0 & Ht0) Hmax]. split.
      * exists r0. rewrite Hin. auto.
      * intros r1 [H1| ->]%Hin Hv1; [auto|congruence].
    + intros r1 [H1| ->]%Hin; [auto|exact ne].
Qed.

Lemma holds_latest_valid_buses S l : forall seen last,
  holds_latest seen last ->
  holds_latest (seen ++ l) (snd (valid_buses last l S)).
Proof.
  induction l as [|r l IH]; intros seen last Hl.
  - cbn. rewrite app_nil_r. exact Hl.
  - rewrite valid_buses_cons. cbn [snd].
    replace (seen ++ r :: l) with ((seen ++ [r]) ++ l)
      by (rewrite <- app_assoc; reflexivity).
    apply IH, holds_latest_step, Hl.
Qed.

Lemma holds_latest_stream S stream :
  holds_latest stream (snd (valid_buses ∅ stream S)).
Proof.
  apply (holds_latest_valid_buses S stream [] ∅).
  intros v. rewrite lookup_empty. intros r Hr. inversion Hr.
Qed.

(** X4: after any stream of fetched records the last-seen dictionary
    holds, for every vehicle of the stream, the greatest time among all
    its fetched records, kept or not and whatever the start time, and
    holds nothing for other vehicles. *)
Theorem last_seen_is_latest_fetched
    (S : datetime) (stream : list BusRecord) (v : VehicleNumberType) :
  let last := snd (valid_buses ∅ stream S) in
  (forall t, last !! v = Some t <->
     (exists r, r ∈ stream /\ _vehicle_number r = v /\ _time r = t) /\
     (forall r, r ∈ stream -> _vehicle_number r = v -> _time r <= t)) /\
  (last !! v = None <-> forall r, r ∈ stream -> _vehicle_number r <> v).
Proof.
  intros last. pose proof (holds_latest_stream S stream v) as Hl.
  fold last in Hl. destruct (last !! v) as [t0|]; split.
  - intros t. split.
    + intros [= <-]. exact Hl.
    + intros [(r & Hr & Hv & Ht) Hmax].
      destruct Hl as [(r0 & Hr0 & Hv0 & Ht0) Hmax0].
      specialize (Hmax r0 Hr0 Hv0). specialize (Hmax0 r Hr Hv).
      f_equal. lia.
  - split; [discriminate|]. intros Hnone.
    destruct Hl as [(r0 & Hr0 & Hv0 & _) _]. destruct (Hnone r0 Hr0 Hv0).
  - intros t. split; [discriminate|].
    intros [(r & Hr & Hv & _) _]. destruct (Hl r Hr Hv).
  - split; [intros _; exact Hl|reflexivity].
Qed.

Lemma last_seen_is_latest_fetched_witness :
  snd (valid_buses ∅ sample_stream sample_start) !! "1000"%string
  = Some (36000 * 1000000).
Proof.
  pose proof (last_seen_is_latest_fetched sample_start sample_stream
                "1000"%string) as H.
  cbv zeta in H. destruct H as [H _]. apply H. split.
  - exists (sample_record "1000" 36000 kijowska).
    split; [right; left|split; reflexivity].
  - intros r Hr _. unfold sample_stream in Hr.
    apply elem_of_cons in Hr as [->|Hr];
      [|apply list_elem_of_singleton in Hr as ->]; vm_compute; discriminate.
Defined.

(** X5: the check accepts a record of vehicle V at time T exactly when T
    is after the start of the session and greater than the time of every
    record of V fetched before, whether that record was kept or not. *)
Theorem accepted_iff_newest_fetched
    (S : datetime) (stream : list BusRecord) (r : BusRecord) :
  fst (_is_record_valid (snd (valid_buses ∅ stream S)) r S) = true <->
  S < _time r /\
  forall r', r' ∈ stream ->
    _vehicle_number r' = _vehicle_number r -> _time r' < _time r.
Proof.
  pose proof (holds_latest_stream S stream (_vehicle_number r)) as Hl.
  rewrite _is_record_valid_unfold.
  destruct (snd (valid_buses ∅ stream S) !! _vehicle_number r) as [t|].
  - destruct Hl as [(r0 & Hr0 & Hv0 & Ht0) Hmax].
    destruct (decide (_time r <= t)); cbn [fst].
    + split; [discriminate|]. intros [_ Hnew].
      specialize (Hnew r0 Hr0 Hv0). lia.
    + rewrite bool_decide_eq_true. split.
      * intros HS. split; [lia|]. intros r' Hr' Hv'.
        specialize (Hmax r' Hr' Hv'). lia.
      * intros [HS _]. lia.
  - cbn [fst]. rewrite bool_decide_eq_true. split.
    + intros HS. split; [lia|]. intros r' Hr' Hv'. destruct (Hl r' Hr' Hv').
    + intros [HS _]. lia.
Qed.

Lemma accepted_iff_newest_fetched_witness :
  fst (_is_record_valid (snd (valid_buses ∅ sample_stream sample_start))
         (sample_record "1000" 36010 nearby) sample_start) = true.
Proof.
  apply accepted_iff_newest_fetched. split.
  - vm_compute. reflexivity.
  - intros r' Hr' _. unfold sample_stream in Hr'.
    apply elem_of_cons in Hr' as [->|Hr'];
      [|apply list_elem_of_singleton in Hr' as ->]; vm_compute; reflexivity.
Defined.

Lemma valid_buses_covers l : forall last S (r : BusRecord),
  r ∈ l ->
  exists t, snd (valid_buses last l S) !! _vehicle_number r = Some t
            /\ _time r <= t.
Proof.
  induction l as [|r0 l IH]; intros last S r Hr; [inversion Hr|].
  rewrite valid_buses_cons. cbn [snd].
  apply elem_of_cons in Hr as [->|Hr]; [|apply IH, Hr].
  destruct (_is_record_valid_last_covers last r0 S) as (t1 & H1 & Hle1).
  destruct (valid_buses_last_mono l _ S _ t1 H1) as (t2 & H2 & Hle2).
  exists t2. split; [exact H2|lia].
Qed.

Lemma valid_buses_all_covered l : forall last S,
  (forall r : BusRecord, r ∈ l ->
     exists t, last !! _vehicle_number r = Some t /\ _time r <= t) ->
  valid_buses last l S = ([], last).
Proof.
  induction l as [|r l IH]; intros last S Hcov; [reflexivity|].
  rewrite valid_buses_cons, _is_record_valid_unfold.
  destruct (Hcov r ltac:(left)) as (t & -> & Hle).
  destruct (decide (_time r <= t)); [|lia]. cbn [fst snd].
  rewrite IH; [reflexivity|].
  intros r' Hr'. apply Hcov. right. exact Hr'.
Qed.

(** X6: a snapshot that shows, for each of its records, nothing newer
    than some record of the same vehicle fetched before adds no record
    and leaves the last-seen dictionary as it is; in particular fetching
    the same snapshot again adds nothing. *)
Theorem stale_snapshot_adds_nothing
    (last : gmap VehicleNumberType datetime) (fetched again : list BusRecord)
    (S S' : datetime) :
  (forall r, r ∈ again ->
     exists r0, r0 ∈ fetched /\ _vehicle_number r0 = _vehicle_number r
                /\ _time r <= _time r0) ->
  valid_buses (snd (valid_buses last fetched S)) again S'
  = ([], snd (valid_buses last fetched S))
  /\ valid_buses (snd (valid_buses last fetched S)) fetched S'
     = ([], snd (valid_buses last fetched S)).
Proof.
  intros Hstale. split; apply valid_buses_all_covered.
  - intros r Hr. destruct (Hstale r Hr) as (r0 & Hr0 & Hv0 & Hle).
    destruct (valid_buses_covers fetched last S r0 Hr0) as (t & Ht & Hle0).
    exists t. rewrite <- Hv0. split; [exact Ht|lia].
  - intros r Hr. apply valid_buses_covers, Hr.
Qed.

Lemma stale_snapshot_adds_nothing_witness :
  fst (valid_buses (snd (valid_buses ∅ sample_stream sample_start))
         [sample_record "1000" 35950 nearby] sample_start) = [].
Proof.
  destruct (stale_snapshot_adds_nothing ∅ sample_stream
              [sample_record "1000" 35950 nearby] sample_start sample_start)
    as [H _].
  - intros r Hr. apply list_elem_of_singleton in Hr as ->.
    exists (sample_record "1000" 36000 kijowska).
    split; [right; left|split; [reflexivity|vm_compute; discriminate]].
  - rewrite H. reflexivity.
Defined.

Lemma valid_buses_per_vehicle v S stream : forall last1 last2,
  last1 !! v = last2 !! v ->
  records_of v (fst (valid_buses last1 stream S))
  = fst (valid_buses last2 (records_of v stream) S)
  /\ snd (valid_buses last1 stream S) !! v
     = snd (valid_buses last2 (records_of v stream) S) !! v.
Proof.
  unfold records_of.
  induction stream as [|r stream IH]; intros last1 last2 Hagree.
  - cbn. auto.
  - rewrite valid_buses_cons. cbn [fst snd].
    rewrite filter_app, filter_cons.
    destruct (decide (_vehicle_number r = v)) as [e|ne].
    + rewrite valid_buses_cons. cbn [fst snd].
      assert (Hstep : fst (_is_record_valid last1 r S)
                      = fst (_is_record_valid last2 r S)
                      /\ snd (_is_record_valid last1 r S) !! v
                         = snd (_is_record_valid last2 r S) !! v).
      { rewrite !_is_record_valid_unfold, e, <- Hagree.
        destruct (last1 !! v) as [t|] eqn:E1;
          [destruct (decide (_time r <= t))|]; cbn [fst snd];
          rewrite <- ?e, ?lookup_insert_eq, ?e, ?E1; auto. }
      destruct Hstep as [Hfst Hsnd].
      destruct (IH _ _ Hsnd) as [IH1 IH2].
      rewrite <- Hfst, <- IH1. split; [|exact IH2]. f_equal.
      destruct (fst (_is_record_valid last1 r S)); [|reflexivity].
      rewrite filter_cons, decide_True by exact e. reflexivity.
    + assert (Hstep : snd (_is_record_valid last1 r S) !! v = last2 !! v).
      { rewrite _is_record_valid_unfold, <- Hagree.
        destruct (last1 !! _vehicle_number r) as [t|];
          [destruct (decide (_time r <= t))|]; cbn [snd];
          rewrite ?lookup_insert_ne by exact ne; reflexivity. }
      destruct (IH _ _ Hstep) as [IH1 IH2].
      split; [|exact IH2]. rewrite <- IH1.
      destruct (fst (_is_record_valid last1 r S)); [|reflexivity].
      rewrite filter_cons, decide_False by exact ne. reflexivity.
Qed.

(** X7: vehicles do not interfere: the records of a vehicle kept out of
    a stream are the records kept when only that vehicle's records are
    fetched, in the same order. *)
Theorem kept_records_per_vehicle
    (S : datetime) (stream : list BusRecord) (v : VehicleNumberType) :
  records_of v (fst (valid_buses ∅ stream S))
  = fst (valid_buses ∅ (records_of v stream) S).
Proof. apply valid_buses_per_vehicle. reflexivity. Qed.

(** ** The statistics of a recording *)

Lemma _download_current_buses_stats strptime tp default_start default_end
    net log recs stats net' log' :
  _download_current_buses strptime tp default_start default_end net log
    = Ok (recs, stats, net', log') ->
  _n_successful_requests stats = 1 /\ 1 <= _n_requests stats
  /\ _n_records stats = 0.
Proof.
  unfold _download_current_buses, _download_valid_json.
  destruct (_download_valid_json_loop net log 0)
    as [[[[good n] net1] log1]| |] eqn:Hloop;
    cbn [mbind outcome_bind]; try discriminate.
  apply _download_valid_json_loop_inv in Hloop as (bad & _ & _ & _ & -> & _).
  destruct (_parse_bus_records strptime tp good log1) as [[recs0 log0]| |];
    cbn [mbind outcome_bind]; try discriminate.
  intros [= <- <- <- <-]. cbn. lia.
Qed.

(** A returning run of the loop made one round for each clock reading
    before the deadline and stopped at the first reading that was not. *)
Lemma _record_buses_while_rounds strptime tp default_start default_end clock :
  forall net log S E stats bus_recs last recs stats' clock' net' log',
    _record_buses_while strptime tp default_start default_end clock net log S E
      stats bus_recs last = Ok (recs, stats', clock', net', log') ->
    exists early late,
      clock = early ++ late :: clock' /\
      Forall (fun now => now < E) early /\ E <= late /\
      _n_successful_requests stats'
        = _n_successful_requests stats + Z.of_nat (length early) /\
      _n_requests stats + Z.of_nat (length early) <= _n_requests stats' /\
      _n_records stats' = _n_records stats.
Proof.
  induction clock as [|now clock IH];
    intros net log S E stats bus_recs last recs stats' clock' net' log' Hrun;
    [discriminate|].
  cbn [_record_buses_while] in Hrun.
  destruct (decide (now < E)) as [Hnow|Hnow].
  - rewrite bool_decide_eq_true_2 in Hrun by exact Hnow.
    destruct (_download_current_buses strptime tp default_start default_end net
                (log ++ [RequestingBusData]))
      as [[[[cur cur_stats] net1] log1]| |] eqn:Hd;
      cbn [mbind outcome_bind] in Hrun; try discriminate.
    apply _download_current_buses_stats in Hd as (Hs & Hr & Hn).
    destruct (valid_buses last cur S) as [valid last1].
    apply IH in Hrun
      as (early & late & -> & Hearly & Hlate & Hsucc & Hreq & Hrec).
    exists (now :: early), late. cbn in Hsucc, Hreq, Hrec.
    split; [reflexivity|]. split; [constructor; assumption|].
    split; [exact Hlate|]. cbn [length]. lia.
  - rewrite bool_decide_eq_false_2 in Hrun by exact Hnow.
    injection Hrun as <- <- <- <- <-. exists [], now. cbn.
    split; [reflexivity|]. split; [constructor|]. lia.
Qed.

(** X8: every run of [record_buses] that returns has read the clock for
    the start of the window, once per round before the deadline, once at
    or after the deadline and once more for the end of the window; its
    statistics count one successful request per round, at least as many
    requests, and as many records as it hands back. *)
Theorem record_buses_statistics strptime download_duration time_parser
    default_start default_end clock net log bus_recs stats clock' net' log' :
  record_buses strptime download_duration time_parser default_start default_end
    clock net log = Ok (bus_recs, stats, clock', net', log') ->
  exists time_of_start early late time_of_exit,
    clock = time_of_start :: early ++ late :: time_of_exit :: clock' /\
    Forall (fun now => now < time_of_start + download_duration) early /\
    time_of_start + download_duration <= late /\
    _n_successful_requests stats = Z.of_nat (length early) /\
    _n_successful_requests stats <= _n_requests stats /\
    _n_records stats = Z.of_nat (length bus_recs) /\
    _processing_start_time stats = time_of_start /\
    _processing_end_time stats = time_of_exit.
Proof.
  unfold record_buses. destruct clock as [|time_of_start clock];
    [discriminate|].
  destruct (_record_buses_loop strptime download_duration time_parser
              default_start default_end clock net log time_of_start)
    as [[[[[recs stats0] clock0] net0] log0]| |] eqn:Hloop;
    cbn [mbind outcome_bind]; try discriminate.
  destruct clock0 as [|now clock0]; [discriminate|].
  intros [= <- <- <- <- <-].
  unfold _record_buses_loop in Hloop.
  apply _record_buses_while_rounds in Hloop
    as (early & late & -> & Hearly & Hlate & Hsucc & Hreq & _).
  cbn in Hsucc, Hreq.
  exists time_of_start, early, late, now. cbn.
  repeat split; try assumption; lia.
Qed.

Lemma record_buses_statistics_witness :
  exists time_of_start early late time_of_exit,
    sample_start :: sample_clock ++ [36020 * 1000000]
    = time_of_start :: early ++ late :: time_of_exit :: [] /\
    length early = 2%nat.
Proof.
  destruct (record_buses_statistics sample_strptime (20 * 1000000)
              (mkTimeParser "%H:%M:%S") 0 1
              (sample_start :: sample_clock ++ [36020 * 1000000])
              sample_net []
              [mkBusRecord "1000" "1" "1" (36000 * 1000000)
                 (mkPosition (float_literal 520 1) (float_literal 210 1));
               mkBusRecord "1000" "1" "1" (36010 * 1000000)
                 (mkPosition (float_literal 520 1) (float_literal 210 1))]
              (mkStats 3 2 2 sample_start (36020 * 1000000)) [] []
              [RequestingBusData; NewRecords 1; RequestingBusData;
               ApiErrorMessage (AStr "error text");
               RecordParseError ValueError; NewRecords 1])
    as (time_of_start & early & late & time_of_exit & Hclock & _ & _
        & Hsucc & _).
  - vm_compute. reflexivity.
  - exists time_of_start, early, late, time_of_exit.
    split; [exact Hclock|]. cbn in Hsucc. lia.
Defined.

(** X9: when the network answers every round with a response whose
    ["result"] is a list of complete entries, [record_buses] returns as
    soon as the clock has passed the deadline: it has made one request
    per round, all successful, and its window runs from the first clock
    reading to the reading taken after the loop. *)
Theorem record_buses_returns strptime download_duration time_parser
    default_start default_end time_of_start early late time_of_exit
    clock goods net log :
  Forall (fun now => now < time_of_start + download_duration) early ->
  time_of_start + download_duration <= late ->
  Forall well_formed goods ->
  length goods = length early ->
  exists bus_recs log',
    record_buses strptime download_duration time_parser
      default_start default_end
      (time_of_start :: early ++ late :: time_of_exit :: clock)
      (map Body goods ++ net) log
    = Ok (bus_recs,
          mkStats (Z.of_nat (length early)) (Z.of_nat (length early))
                  (Z.of_nat (length bus_recs)) time_of_start time_of_exit,
          clock, net, log').
Proof.
  intros Hearly Hlate Hgoods Hlen.
  unfold record_buses, _record_buses_loop.
  destruct (_record_buses_while_returns strptime time_parser
              default_start default_end
              time_of_start (time_of_start + download_duration) late
              (time_of_exit :: clock) net Hlate early goods
              Hearly Hgoods Hlen log
              (mkStats 0 0 0 default_start default_end) [] ∅)
    as (recs & stats' & log' & -> & Hreq & Hsucc).
  cbn [mbind outcome_bind]. exists recs, log'.
  cbn in Hreq, Hsucc. rewrite Hreq, Hsucc. reflexivity.
Qed.

Lemma record_buses_returns_witness :
  exists bus_recs log',
    record_buses sample_strptime (20 * 1000000) (mkTimeParser "%H:%M:%S")
      0 1
      [sample_start; 35941 * 1000000; 35961 * 1000000; 36020 * 1000000]
      [Body (sample_response [sample_entry "1000" "10:00:00"])] []
    = Ok (bus_recs, mkStats 1 1 (Z.of_nat (length bus_recs))
                            sample_start (36020 * 1000000),
          [], [], log').
Proof.
  apply (record_buses_returns sample_strptime (20 * 1000000)
           (mkTimeParser "%H:%M:%S") 0 1 sample_start
           [35941 * 1000000] (35961 * 1000000) (36020 * 1000000) []
           [sample_response [sample_entry "1000" "10:00:00"]] [] []).
  - repeat constructor.
  - vm_compute. discriminate.
  - repeat constructor.
    exists [sample_entry "1000" "10:00:00"]. split; [reflexivity|].
    repeat constructor; eexists; reflexivity.
  - reflexivity.
Defined.

Lemma last_cons_cons {A} (a b d : A) (l : list A) :
  List.last (a :: b :: l) d = List.last (b :: l) d.
Proof. reflexivity. Qed.

Lemma last_default_irrelevant {A} (b d d' : A) (l : list A) :
  List.last (b :: l) d = List.last (b :: l) d'.
Proof.
  revert b. induction l as [|c l IH]; intros b; [reflexivity|].
  rewrite !last_cons_cons. apply IH.
Qed.

Lemma foldl_merge_spec l : forall s0,
  _n_requests (foldl add_requests_and_records_info s0 l)
    = _n_requests s0 + total _n_requests l /\
  _n_successful_requests (foldl add_requests_and_records_info s0 l)
    = _n_successful_requests s0 + total _n_successful_requests l /\
  _n_records (foldl add_requests_and_records_info s0 l)
    = _n_records s0 + total _n_records l /\
  _processing_start_time (foldl add_requests_and_records_info s0 l)
    = _processing_start_time s0 /\
  _processing_end_time (foldl add_requests_and_records_info s0 l)
    = _processing_end_time (List.last l s0).
Proof.
  unfold total. induction l as [|a l IH]; intros s0.
  - cbn. repeat split; lia.
  - cbn [foldl map foldr].
    destruct (IH (add_requests_and_records_info s0 a))
      as (H1 & H2 & H3 & H4 & H5).
    rewrite H1, H2, H3, H4, H5. cbn [add_requests_and_records_info
      _n_requests _n_successful_requests _n_records _processing_start_time].
    repeat split; try lia.
    destruct l as [|b l]; [reflexivity|].
    rewrite last_cons_cons. f_equal. apply last_default_irrelevant.
Qed.

(** X10: merging is associative on whole statistics values, windows
    included; merging a list of values onto a first one from left to
    right adds up each counter, keeps the first value's window start and
    ends the window where the last value's window ends. *)
Theorem merge_all a b c (l : list BusRecordingStatistics) :
  add_requests_and_records_info (add_requests_and_records_info a b) c
  = add_requests_and_records_info a (add_requests_and_records_info b c)
  /\ let s := foldl add_requests_and_records_info a l in
     _n_requests s = _n_requests a + total _n_requests l /\
     _n_successful_requests s
       = _n_successful_requests a + total _n_successful_requests l /\
     _n_records s = _n_records a + total _n_records l /\
     _processing_start_time s = _processing_start_time a /\
     _processing_end_time s = _processing_end_time (List.last l a).
Proof.
  split; [|intros s; apply foldl_merge_spec].
  unfold add_requests_and_records_info. cbn. f_equal; lia.
Qed.

(** X11: reading back a statistics file that holds what [to_json] made
    of a statistics value gives the three counters unchanged and each
    time as the parser reads its own rendering of it; it raises
    ValueError when the parser cannot read a rendering.  When the parser
    reads both renderings back as the times they came from, the value
    read is the value written. *)
Theorem statistics_round_trip strftime strptime
    (s : BusRecordingStatistics) (tp : TimeParser)
    (file : BusRecordingStatsJson) :
  json_items file = to_json strftime s tp ->
  get_bus_recording_stats strptime file tp
  = match strptime (strftime (_processing_start_time s) (_time_format tp))
                   (_time_format tp),
          strptime (strftime (_processing_end_time s) (_time_format tp))
                   (_time_format tp) with
    | Some t1, Some t2 =>
        Ok (mkStats (_n_requests s) (_n_successful_requests s)
                    (_n_records s) t1 t2)
    | _, _ => Raise ValueError
    end
  /\ (strptime (strftime (_processing_start_time s) (_time_format tp))
               (_time_format tp) = Some (_processing_start_time s) ->
      strptime (strftime (_processing_end_time s) (_time_format tp))
               (_time_format tp) = Some (_processing_end_time s) ->
      get_bus_recording_stats strptime file tp = Ok s).
Proof.
  intros Hfile.
  assert (Hfields :
            file = mkBusRecordingStatsJson
                     (Some (_n_requests s)) (Some (_n_successful_requests s))
                     (Some (_n_records s))
                     (Some (strftime (_processing_start_time s)
                                     (_time_format tp)))
                     (Some (strftime (_processing_end_time s)
                                     (_time_format tp)))).
  { unfold to_json, parse_to_str, json_items in Hfile.
    destruct file as [[a|] [b|] [c|] [d|] [e|]];
      cbn in Hfile; try discriminate.
    injection Hfile as -> -> -> -> ->. reflexivity. }
  subst file.
  unfold get_bus_recording_stats, parse_to_datetime. cbn.
  split.
  - destruct (strptime (strftime (_processing_start_time s) _) _); cbn;
      [|reflexivity].
    destruct (strptime (strftime (_processing_end_time s) _) _); reflexivity.
  - intros -> ->. cbn. destruct s; reflexivity.
Qed.

Lemma statistics_round_trip_witness :
  get_bus_recording_stats sample_strptime
    (mkBusRecordingStatsJson (Some 3) (Some 2) (Some 2)
       (Some "10:00:00"%string) (Some "10:00:10"%string))
    (mkTimeParser "%H:%M:%S")
  = Ok (mkStats 3 2 2 (36000 * 1000000) (36010 * 1000000)).
Proof.
  destruct (statistics_round_trip sample_strftime sample_strptime
              (mkStats 3 2 2 (36000 * 1000000) (36010 * 1000000))
              (mkTimeParser "%H:%M:%S")
              (mkBusRecordingStatsJson (Some 3) (Some 2) (Some 2)
                 (Some "10:00:00"%string) (Some "10:00:10"%string)))
    as [_ H].
  - reflexivity.
  - apply H; reflexivity.
Defined.

(** * Further properties of the analysis *)

(** ** Hotspots *)

Lemma elem_of_identities l k :
  k ∈ identities l <->
  exists rec speed, (rec, speed) ∈ l /\ record_key rec = k.
Proof.
  unfold identities. rewrite elem_of_list_to_set, list_elem_of_In, in_map_iff.
  split.
  - intros ([rec speed] & Hk & Hin). apply list_elem_of_In in Hin. eauto.
  - intros (rec & speed & Hin & Hk). exists (rec, speed).
    apply list_elem_of_In in Hin. auto.
Qed.

Lemma members_fresh gc seed l visited :
  members gc seed l visited ## visited
  /\ members gc seed l visited ⊆ identities l.
Proof.
  split.
  - intros k Hk Hv. apply elem_of_members in Hk as [Hn _]. exact (Hn Hv).
  - intros k Hk. apply elem_of_members in Hk as (_ & rec & speed & H & Hk & _).
    apply elem_of_identities. eauto.
Qed.

Lemma visited_after_bounds gc all todo : forall visited,
  visited ∪ identities todo ⊆ visited_after gc all todo visited
  /\ visited_after gc all todo visited
     ⊆ visited ∪ identities todo ∪ identities all.
Proof.
  induction todo as [|[rec speed] todo IH]; intros visited;
    cbn [visited_after].
  - split; intros k; rewrite ?elem_of_union, ?elem_of_identities;
      [intros [H|(r & s & H & _)]; [exact H|inversion H]|auto].
  - assert (Hid : forall k, k ∈ identities ((rec, speed) :: todo)
                            <-> k = record_key rec \/ k ∈ identities todo).
    { intros k. rewrite !elem_of_identities. split.
      - intros (r & s & [[= -> ->]|H]%elem_of_cons & Hk); eauto.
      - intros [->|(r & s & H & Hk)].
        + exists rec, speed. split; [left|reflexivity].
        + exists r, s. split; [right; exact H|exact Hk]. }
    destruct (decide (record_key rec ∈ visited)) as [Hin|Hn].
    + destruct (IH visited) as [IH1 IH2]. split; intros k.
      * rewrite elem_of_union, Hid. intros [H|[->|H]]; apply IH1;
          rewrite elem_of_union; auto.
      * intros H. apply IH2 in H. revert H.
        rewrite !elem_of_union, Hid. tauto.
    + set (v1 := {[record_key rec]} ∪ visited).
      destruct (IH (members gc rec all v1 ∪ v1)) as [IH1 IH2].
      destruct (members_fresh gc rec all v1) as [_ Hsub].
      split; intros k.
      * rewrite elem_of_union, Hid. intros H. apply IH1.
        unfold v1. rewrite !elem_of_union, elem_of_singleton. tauto.
      * intros H. apply IH2 in H. revert H. unfold v1.
        rewrite !elem_of_union, elem_of_singleton, Hid.
        intros [[[H|[H|H]]|H]|H]; auto.
Qed.

Lemma clusters_count gc all todo : forall visited,
  foldr Z.add 0 (map snd (clusters gc all todo visited))
    + Z.of_nat (size visited)
  = Z.of_nat (size (visited_after gc all todo visited)).
Proof.
  induction todo as [|[rec speed] todo IH]; intros visited;
    cbn [clusters visited_after map foldr]; [lia|].
  destruct (decide (record_key rec ∈ visited)) as [Hin|Hn]; [apply IH|].
  cbn [map foldr snd]. rewrite <- IH.
  destruct (members_fresh gc rec all ({[record_key rec]} ∪ visited))
    as [Hdisj _].
  rewrite (size_union _ _ Hdisj).
  rewrite size_union by (apply disjoint_singleton_l; exact Hn).
  rewrite size_singleton. lia.
Qed.

Lemma clusters_shape gc all todo : forall visited,
  Forall (fun c => 1 <= snd c) (clusters gc all todo visited)
  /\ forall c, c ∈ clusters gc all todo visited ->
       exists rec speed, (rec, speed) ∈ todo /\ fst c = _pos rec.
Proof.
  induction todo as [|[rec speed] todo IH]; intros visited; cbn [clusters].
  - split; [constructor|]. intros c Hc. inversion Hc.
  - destruct (decide (record_key rec ∈ visited)) as [Hin|Hn].
    + destruct (IH visited) as [IH1 IH2]. split; [exact IH1|].
      intros c Hc. destruct (IH2 c Hc) as (r & s & H & Hp).
      exists r, s. split; [right; exact H|exact Hp].
    + destruct (IH (members gc rec all ({[record_key rec]} ∪ visited)
                    ∪ ({[record_key rec]} ∪ visited))) as [IH1 IH2].
      split.
      * constructor; [cbn; lia|exact IH1].
      * intros c [->|Hc]%elem_of_cons.
        -- exists rec, speed. split; [left|reflexivity].
        -- destruct (IH2 c Hc) as (r & s & H & Hp).
           exists r, s. split; [right; exact H|exact Hp].
Qed.

(** X12: the hotspots partition the input: every reported count is at
    least one, every reported position is the position of a record of
    the input, and the counts add up to the number of distinct record
    identities (vehicle number and time) of the input, so that no record
    is counted in two hotspots and none is left out. *)
Theorem hotspots_partition gc (bus_speeds : list (BusRecord * option float)) :
  let hotspots := get_positions_of_interest gc bus_speeds in
  foldr Z.add 0 (map snd hotspots) = Z.of_nat (size (identities bus_speeds))
  /\ Forall (fun c => 1 <= snd c) hotspots
  /\ (forall c, c ∈ hotspots ->
        exists rec speed, (rec, speed) ∈ bus_speeds /\ fst c = _pos rec)
  /\ (length hotspots <= size (identities bus_speeds))%nat.
Proof.
  intros hotspots. subst hotspots.
  rewrite get_positions_of_interest_clusters.
  destruct (clusters_shape gc bus_speeds bus_speeds ∅) as [Hge Hpos].
  assert (Hsum : foldr Z.add 0
                   (map snd (clusters gc bus_speeds bus_speeds ∅))
                 = Z.of_nat (size (identities bus_speeds))).
  { pose proof (clusters_count gc bus_speeds bus_speeds ∅) as Hc.
    rewrite size_empty in Hc. rewrite Z.add_0_r in Hc. rewrite Hc.
    do 2 f_equal. apply set_eq. intros k.
    destruct (visited_after_bounds gc bus_speeds bus_speeds ∅) as [H1 H2].
    split; intros H.
    - apply H2 in H. revert H. rewrite !elem_of_union, elem_of_empty. tauto.
    - apply H1. rewrite elem_of_union. auto. }
  split; [exact Hsum|]. split; [exact Hge|]. split; [exact Hpos|].
  assert (Hlen : forall l : list (Position * Z),
            Forall (fun c => 1 <= snd c) l ->
            Z.of_nat (length l) <= foldr Z.add 0 (map snd l)).
  { induction 1 as [|c l Hc _ IH]; cbn [length map foldr]; lia. }
  specialize (Hlen _ Hge). lia.
Qed.

Lemma hotspots_partition_witness :
  exists rec speed,
    (rec, speed)
      ∈ [(sample_record "1000" 36000 kijowska, None);
         (sample_record "2000" 36000 halfway, Some (float_of_int 15));
         (sample_record "3000" 36000 further_on, Some (float_of_int 16))]
    /\ further_on = _pos rec.
Proof.
  pose proof (hotspots_partition sample_great_circle_m
                [(sample_record "1000" 36000 kijowska, None);
                 (sample_record "2000" 36000 halfway,
                    Some (float_of_int 15));
                 (sample_record "3000" 36000 further_on,
                    Some (float_of_int 16))]) as H.
  cbv zeta in H. destruct H as (_ & _ & Hpos & _).
  apply (Hpos (further_on, 1)). vm_compute. right. left.
Defined.

Lemma clusters_isolated gc all :
  (forall r1 s1 r2 s2, (r1, s1) ∈ all -> (r2, s2) ∈ all ->
     record_key r1 <> record_key r2 -> within_100m gc r1 r2 = false) ->
  forall todo visited,
    todo ⊆ all ->
    NoDup (map (fun p => record_key (fst p)) todo) ->
    (forall rec speed, (rec, speed) ∈ todo -> record_key rec ∉ visited) ->
    clusters gc all todo visited
    = map (fun p => (_pos (fst p), 1)) todo.
Proof.
  intros Hfar. induction todo as [|[rec speed] todo IH];
    intros visited Hsub Hnodup Hnew; [reflexivity|].
  cbn [clusters map fst].
  rewrite decide_False by (apply (Hnew rec speed); left).
  assert (Hnone : members gc rec all ({[record_key rec]} ∪ visited) = ∅).
  { apply set_eq. intros k. rewrite elem_of_members, elem_of_empty.
    split; [|tauto]. intros (Hk & r & s & Hin & <- & Hw).
    rewrite (Hfar rec speed r s) in Hw; [discriminate| |exact Hin|].
    - apply Hsub. left.
    - intros e. apply Hk. rewrite elem_of_union, elem_of_singleton. auto. }
  rewrite Hnone, size_empty, union_empty_l_L. cbn [Z.of_nat]. f_equal.
  cbn [map fst] in Hnodup. apply NoDup_cons in Hnodup as [Hhead Htail].
  apply IH; [|exact Htail|].
  - intros p Hp. apply Hsub. right. exact Hp.
  - intros r s Hin. rewrite elem_of_union, elem_of_singleton.
    intros [e|Hv].
    + apply Hhead. rewrite <- e.
      apply list_elem_of_In, in_map_iff. exists (r, s).
      split; [reflexivity|]. apply list_elem_of_In. exact Hin.
    + apply (Hnew r s); [right; exact Hin|exact Hv].
Qed.

(** X13: when the records of the input have pairwise distinct identities
    and no record lies less than 100 m from another one, every record is
    a hotspot of its own: the result lists the positions of the input in
    order, each with count 1. *)
Theorem isolated_records_are_hotspots gc
    (bus_speeds : list (BusRecord * option float)) :
  NoDup (map (fun p => record_key (fst p)) bus_speeds) ->
  (forall r1 s1 r2 s2, (r1, s1) ∈ bus_speeds -> (r2, s2) ∈ bus_speeds ->
     record_key r1 <> record_key r2 -> within_100m gc r1 r2 = false) ->
  get_positions_of_interest gc bus_speeds
  = map (fun p => (_pos (fst p), 1)) bus_speeds.
Proof.
  intros Hnodup Hfar. rewrite get_positions_of_interest_clusters.
  apply clusters_isolated; [exact Hfar|reflexivity|exact Hnodup|].
  intros rec speed _. apply not_elem_of_empty.
Qed.

Lemma isolated_records_are_hotspots_witness :
  get_positions_of_interest sample_great_circle_m
    [(sample_record "1000" 36000 kijowska, None);
     (sample_record "2000" 36000 nearby, Some (float_of_int 15))]
  = [(kijowska, 1); (nearby, 1)].
Proof.
  apply (isolated_records_are_hotspots sample_great_circle_m
           [(sample_record "1000" 36000 kijowska, None);
            (sample_record "2000" 36000 nearby, Some (float_of_int 15))]).
  - cbn. repeat (apply NoDup_cons; split;
                 [rewrite ?elem_of_cons, elem_of_nil; intros H;
                  repeat destruct H as [H|H]; try discriminate; exact H|]).
    apply NoDup_nil. exact I.
  - intros r1 s1 r2 s2 H1 H2 Hne.
    apply elem_of_cons in H1 as [[= -> ->]|H1];
      [|apply list_elem_of_singleton in H1 as [= -> ->]];
      (apply elem_of_cons in H2 as [[= -> ->]|H2];
       [|apply list_elem_of_singleton in H2 as [= -> ->]]);
      try (exfalso; apply Hne; reflexivity); vm_compute; reflexivity.
Defined.

(** ** Speeds of records out of order *)

Lemma zero_delta_exists (recs : list BusRecord) :
  existsb (zero_delta_at recs) (seq 0 (length recs - 1)) = true <->
  exists (i : nat) prev rec,
    recs !! i = Some prev /\ recs !! S i = Some rec /\
    _vehicle_number prev = _vehicle_number rec /\ _time prev = _time rec.
Proof.
  rewrite existsb_exists. unfold zero_delta_at. split.
  - intros (i & _ & Hz).
    destruct (recs !! i) as [prev|] eqn:Hp; [|discriminate].
    destruct (recs !! S i) as [rec|] eqn:Hr; [|discriminate].
    apply andb_true_iff in Hz as [Hv Ht].
    apply bool_decide_eq_true in Hv, Ht. exists i, prev, rec. auto.
  - intros (i & prev & rec & Hp & Hr & Hv & Ht). exists i. split.
    + apply in_seq. apply lookup_lt_Some in Hr. lia.
    + rewrite Hp, Hr, !bool_decide_eq_true_2 by assumption. reflexivity.
Qed.

(** X14: [get_speeds] returns exactly when no two neighbouring records
    of one vehicle carry the same time, and raises ZeroDivisionError
    exactly when two do; records of one vehicle whose times go backwards
    do not stop it. *)
Theorem get_speeds_returns_iff gc (recs : list BusRecord) :
  ((exists speeds, get_speeds gc recs = Ok speeds) <->
   forall (i : nat) prev rec,
     recs !! i = Some prev -> recs !! S i = Some rec ->
     _vehicle_number prev = _vehicle_number rec ->
     _time prev <> _time rec) /\
  (get_speeds gc recs = Raise ZeroDivisionError <->
   exists (i : nat) prev rec,
     recs !! i = Some prev /\ recs !! S i = Some rec /\
     _vehicle_number prev = _vehicle_number rec /\ _time prev = _time rec).
Proof.
  rewrite get_speeds_unfold. pose proof (zero_delta_exists recs) as Hz.
  destruct (existsb (zero_delta_at recs) (seq 0 (length recs - 1))).
  - destruct (proj1 Hz eq_refl) as (i & prev & rec & Hp & Hr & Hv & Ht).
    split; split.
    + intros [speeds [=]].
    + intros Hne. destruct (Hne i prev rec Hp Hr Hv Ht).
    + intros _. exists i, prev, rec. auto.
    + reflexivity.
  - split; split.
    + intros _ i prev rec Hp Hr Hv Ht.
      assert (false = true); [|discriminate].
      apply Hz. exists i, prev, rec. auto.
    + intros _. eexists. reflexivity.
    + discriminate.
    + intros Hex. apply Hz in Hex. discriminate.
Qed.

Lemma get_speeds_returns_iff_witness :
  exists speeds,
    get_speeds sample_great_circle_m
      [sample_record "1000" 36010 kijowska;
       sample_record "1000" 36000 nearby;
       sample_record "2000" 36000 nearby] = Ok speeds.
Proof.
  apply get_speeds_returns_iff.
  intros i prev rec Hp Hr Hv.
  destruct i as [|[|i]]; cbn in Hp, Hr; simplify_eq; cbn in *;
    try discriminate; lia.
Defined.

Lemma binary_round_aux_signed sx mx ex lx :
  signed sx (binary_round_aux prec emax sx mx ex lx).
Proof.
  unfold binary_round_aux.
  destruct (shr_fexp prec emax mx ex lx) as [mrs' e'].
  destruct (shr_fexp prec emax _ e' loc_Exact) as [mrs'' e''].
  destruct (shr_m mrs''); [reflexivity| |exact I].
  destruct (e'' <=? emax - prec); reflexivity.
Qed.

Lemma total_seconds_negative (delta : timedelta) :
  delta < 0 -> signed true (total_seconds delta).
Proof.
  destruct delta as [|p|p]; try lia. intros _.
  unfold total_seconds, long_true_divide. cbn [Z2SF SFdiv].
  destruct (SFdiv_core_binary prec emax (Z.pos p) 0 1000000 0) as [[mz ez] lz].
  apply binary_round_aux_signed.
Qed.

Lemma SFdiv_distance_by_negative dist ts :
  is_distance dist = true -> signed true ts ->
  SFltb float_zero (SFdiv prec emax dist ts) = false.
Proof.
  intros Hd Hs.
  destruct dist as [sd|sd| |sd md ed], ts as [st|st| |st mt et];
    cbn in Hd, Hs; subst; try discriminate;
    try (destruct sd; try discriminate; reflexivity).
  destruct sd; [discriminate|]. cbn [SFdiv xorb].
  destruct (SFdiv_core_binary prec emax (Z.pos md) ed (Z.pos mt) et)
    as [[mz ez] lz].
  pose proof (binary_round_aux_signed true mz ez lz) as Hr.
  destruct (binary_round_aux prec emax true mz ez lz); cbn in Hr; subst;
    reflexivity.
Qed.

(** X15: records of one vehicle that come out of time order are not
    rejected: where the time of a record is smaller than the time of its
    neighbour before, the speed [get_speeds] returns for it is the
    great-circle distance from the latitude and longitude of the
    neighbour to those of the record, divided by a negative number of
    seconds, hence never greater than zero. *)
Theorem backwards_time_gives_no_positive_speed gc (recs : list BusRecord)
    speeds (i : nat) prev rec :
  get_speeds gc recs = Ok speeds ->
  recs !! i = Some prev -> recs !! S i = Some rec ->
  _vehicle_number prev = _vehicle_number rec ->
  _time rec < _time prev ->
  is_distance (gc [_lat (_pos prev); _lon (_pos prev)]
                  [_lat (_pos rec); _lon (_pos rec)]) = true ->
  exists v,
    speeds !! S i = Some (Some v) /\
    v = SFdiv prec emax
          (gc [_lat (_pos prev); _lon (_pos prev)]
              [_lat (_pos rec); _lon (_pos rec)])
          (long_true_divide (_time rec - _time prev) 1000000) /\
    SFltb float_zero v = false.
Proof.
  intros Hs Hp Hr Hv Ht Hd. rewrite get_speeds_unfold in Hs.
  destruct (existsb (zero_delta_at recs) (seq 0 (length recs - 1)));
    [discriminate|].
  injection Hs as <-.
  assert (Hi : (S i < length recs)%nat) by (eapply lookup_lt_Some; exact Hr).
  eexists. split; [|split; [reflexivity|]].
  - cbn [seq map].
    rewrite lookup_cons, list_lookup_fmap, lookup_seq_lt by lia.
    cbn [fmap option_fmap option_map Nat.add speed_at].
    rewrite Hp, Hr, decide_True by exact Hv. reflexivity.
  - apply SFdiv_distance_by_negative; [exact Hd|].
    apply total_seconds_negative. lia.
Qed.

Lemma backwards_time_gives_no_positive_speed_witness :
  get_speeds sample_great_circle_m
    [sample_record "1000" 36010 kijowska;
     sample_record "1000" 36000 nearby]
  = Ok [None; Some (S754_finite true 5367671510877900 (-48))]
  /\ SFltb float_zero (S754_finite true 5367671510877900 (-48)) = false.
Proof.
  destruct (backwards_time_gives_no_positive_speed sample_great_circle_m
              [sample_record "1000" 36010 kijowska;
               sample_record "1000" 36000 nearby]
              [None; Some (S754_finite true 5367671510877900 (-48))]
              0%nat
              (sample_record "1000" 36010 kijowska)
              (sample_record "1000" 36000 nearby))
    as (v & Hv & _ & Hneg);
    [vm_compute; reflexivity|reflexivity|reflexivity|reflexivity
    |vm_compute; reflexivity|vm_compute; reflexivity|].
  injection Hv as <-. split; [vm_compute; reflexivity|exact Hneg].
Defined.

(** * Properties of the timetable download *)

Lemma rows_of_app (files1 files2 : list (Z * list (list Cell))) :
  rows_of (files1 ++ files2) = rows_of files1 ++ rows_of files2.
Proof. unfold rows_of. rewrite map_app, concat_app. reflexivity. Qed.

Lemma run_inv_start : run_inv [] (mkDeparturesRun [] 1 0 [] []).
Proof. split; cbn; try reflexivity; try constructor; lia. Qed.

Lemma run_inv_log before entry run :
  run_inv before run -> run_inv before (log_departures entry run).
Proof. intros [? ? ? ? ? ?]. split; assumption. Qed.

(** One request answered: the departures join the buffer, which is
    written out and emptied once it holds more than 10000. *)
Lemma run_inv_step before run cur log :
  run_inv before run ->
  run_inv (before ++ cur)
    (if 10000 <? Z.of_nat (length (departures run ++ cur))
     then mkDeparturesRun
            [] (file_id run + 1)
            (n_departures run + Z.of_nat (length cur))
            (save_departures_to_file (departures run ++ cur) (file_id run)
                                     (files run))
            log
     else mkDeparturesRun
            (departures run ++ cur) (file_id run)
            (n_departures run + Z.of_nat (length cur))
            (files run) log).
Proof.
  intros [Hrows Hids Hid Hfull Hbuf Hcount].
  destruct (10000 <? Z.of_nat (length (departures run ++ cur))) eqn:Hflush.
  - apply Z.ltb_lt in Hflush. unfold save_departures_to_file.
    split; cbn [departures file_id n_departures files].
    + rewrite rows_of_app. unfold rows_of at 2. cbn [map snd concat].
      rewrite !app_nil_r. unfold serialize_list in *.
      rewrite !map_app, app_assoc, Hrows. reflexivity.
    + rewrite map_app, length_app, Hids. cbn [map fst length].
      rewrite Nat.add_1_r, seq_S, map_app. cbn [map].
      rewrite Hid. do 2 f_equal. lia.
    + rewrite length_app. cbn [length]. lia.
    + apply Forall_app. split; [exact Hfull|].
      constructor; [|constructor]. cbn [snd]. unfold serialize_list.
      rewrite length_map. exact Hflush.
    + cbn. lia.
    + rewrite length_app. lia.
  - apply Z.ltb_ge in Hflush.
    split; cbn [departures file_id n_departures files]; try assumption.
    + unfold serialize_list in *.
      rewrite !map_app, app_assoc, Hrows. reflexivity.
    + rewrite length_app. lia.
Qed.

Lemma download_departures_lines_inv {World}
    (for_line : string -> string -> string -> World
                -> outcome (list Departure) * World)
    bus_stop_id bus_stop_num lines :
  forall run w before o run' w',
    run_inv before run ->
    download_departures_lines for_line bus_stop_id bus_stop_num lines run w
    = (o, run', w') ->
    run_inv (before ++ fst (fetched_for_lines for_line bus_stop_id
                              bus_stop_num lines w)) run'
    /\ snd (fetched_for_lines for_line bus_stop_id bus_stop_num lines w)
       = match o with Ok _ => Some w' | _ => None end.
Proof.
  induction lines as [|line lines IH]; intros run w before o run' w' Hinv Hrun.
  - injection Hrun as <- <- <-. rewrite app_nil_r. split; [exact Hinv|].
    reflexivity.
  - cbn [download_departures_lines fetched_for_lines] in *.
    apply (run_inv_log _ (DownloadingDeparturesForLine line)) in Hinv.
    destruct (for_line bus_stop_id bus_stop_num line w) as [[cur|e|] w1].
    + eapply IH in Hrun; [|apply run_inv_step; exact Hinv].
      destruct (fetched_for_lines for_line bus_stop_id bus_stop_num lines w1)
        as [later ow].
      cbn [fst snd] in *. rewrite app_assoc. exact Hrun.
    + injection Hrun as <- <- <-. rewrite app_nil_r. split; [exact Hinv|].
      reflexivity.
    + injection Hrun as <- <- <-. rewrite app_nil_r. split; [exact Hinv|].
      reflexivity.
Qed.

Lemma download_departures_bus_stops_inv {World}
    (bus_lines : BusStop -> World -> outcome (list string) * World)
    (for_line : string -> string -> string -> World
                -> outcome (list Departure) * World)
    bus_stops :
  forall run w before o run' w',
    run_inv before run ->
    download_departures_bus_stops bus_lines for_line bus_stops run w
    = (o, run', w') ->
    run_inv (before ++ fetched bus_lines for_line bus_stops w) run'.
Proof.
  induction bus_stops as [|bus_stop bus_stops IH];
    intros run w before o run' w' Hinv Hrun.
  - injection Hrun as <- <- <-. rewrite app_nil_r. exact Hinv.
  - cbn [download_departures_bus_stops fetched] in *.
    unfold get_bus_stop_id, get_bus_stop_number in Hrun.
    apply (run_inv_log _ (DownloadingDeparturesForBusStop
                            (_bus_stop_id bus_stop)
                            (_bus_stop_number bus_stop))) in Hinv.
    destruct (bus_lines bus_stop w) as [[lines|e|] w1].
    + destruct (download_departures_lines for_line (_bus_stop_id bus_stop)
                  (_bus_stop_number bus_stop) lines _ w1)
        as [[o1 run1] w2] eqn:Hlines.
      eapply download_departures_lines_inv in Hlines as [Hinv1 Hw];
        [|exact Hinv].
      destruct (fetched_for_lines for_line (_bus_stop_id bus_stop)
                  (_bus_stop_number bus_stop) lines w1) as [ds ow].
      cbn [fst snd] in *. subst ow.
      destruct o1 as [u|e|].
      * eapply IH in Hrun;
          [|apply (run_inv_log _ (DeparturesReceived (n_departures run1)));
            exact Hinv1].
        rewrite <- app_assoc in Hrun. exact Hrun.
      * injection Hrun as <- <- <-. exact Hinv1.
      * injection Hrun as <- <- <-. exact Hinv1.
    + injection Hrun as <- <- <-. rewrite app_nil_r. exact Hinv.
    + injection Hrun as <- <- <-. rewrite app_nil_r. exact Hinv.
Qed.

Lemma download_departures_bus_stops_log {World}
    (bus_lines : BusStop -> World -> outcome (list string) * World)
    (for_line : string -> string -> string -> World
                -> outcome (list Departure) * World)
    bus_stops :
  forall run w u run' w',
    download_departures_bus_stops bus_lines for_line bus_stops run w
    = (Ok u, run', w') ->
    bus_stops <> [] ->
    last (departures_log run')
    = Some (DeparturesReceived (n_departures run')).
Proof.
  induction bus_stops as [|bus_stop bus_stops IH];
    intros run w u run' w' Hrun Hne; [congruence|].
  cbn [download_departures_bus_stops] in Hrun.
  destruct (bus_lines bus_stop w) as [[lines|e|] w1]; try discriminate.
  destruct (download_departures_lines for_line _ _ lines _ w1)
    as [[[u1|e|] run1] w2]; try discriminate.
  destruct bus_stops as [|next bus_stops].
  - injection Hrun as <- <- <-. cbn [log_departures departures_log
                                      n_departures].
    apply last_snoc.
  - eapply IH; [exact Hrun|discriminate].
Qed.

(** What the last lines of [download_departures] add to the run the
    loops hand over: one more file when departures are waiting. *)
Lemma download_departures_final {World}
    (bus_lines : BusStop -> World -> outcome (list string) * World)
    (for_line : string -> string -> string -> World
                -> outcome (list Departure) * World)
    (bus_stops : list BusStop) (w : World) run w' :
  download_departures bus_lines for_line bus_stops w = (Ok tt, run, w') ->
  exists u run1,
    download_departures_bus_stops bus_lines for_line bus_stops
      (mkDeparturesRun [] 1 0 [] []) w = (Ok u, run1, w')
    /\ rows_of (files run)
       = rows_of (files run1) ++ map Departure_serialize (departures run1)
    /\ departures_log run = departures_log run1
    /\ n_departures run = n_departures run1.
Proof.
  unfold download_departures.
  destruct (download_departures_bus_stops bus_lines for_line bus_stops _ w)
    as [[[u|e|] run1] w1]; try discriminate.
  intros Hrun. exists u, run1.
  destruct (departures run1) as [|d ds]; injection Hrun as <- <-.
  - cbn [map]. rewrite app_nil_r. auto.
  - cbn [files departures_log n_departures].
    unfold save_departures_to_file. rewrite rows_of_app.
    unfold rows_of at 2. cbn [map snd concat]. rewrite app_nil_r. auto.
Qed.

(** X16: when [download_departures] returns, the rows of the files it
    wrote, read file after file, are the departures that its requests
    handed back, each serialised once and in the order of the requests:
    no departure is left out, written twice or moved. *)
Theorem download_departures_saves_all {World}
    (bus_lines : BusStop -> World -> outcome (list string) * World)
    (for_line : string -> string -> string -> World
                -> outcome (list Departure) * World)
    (bus_stops : list BusStop) (w : World) run w' :
  download_departures bus_lines for_line bus_stops w = (Ok tt, run, w') ->
  rows_of (files run)
  = map Departure_serialize (fetched bus_lines for_line bus_stops w).
Proof.
  intros Hrun.
  apply download_departures_final in Hrun
    as (u & run1 & Hloop & -> & _ & _).
  apply (download_departures_bus_stops_inv _ _ _ _ _ []) in Hloop
    as [Hrows _ _ _ _ _]; [|exact run_inv_start].
  exact Hrows.
Qed.

Lemma download_departures_saves_all_witness :
  exists run,
    download_departures sample_bus_lines sample_departures_for_line
      [sample_bus_stop]
      [Ok [sample_departure "520" 36000; sample_departure "520" 36600];
       Ok [sample_departure "182" 36300]]
    = (Ok tt, run, [])
    /\ rows_of (files run)
       = [[CStr "7009"; CStr "01"; CStr "520"; CStr "1";
           CTime (36000 * 1000000)];
          [CStr "7009"; CStr "01"; CStr "520"; CStr "1";
           CTime (36600 * 1000000)];
          [CStr "7009"; CStr "01"; CStr "182"; CStr "1";
           CTime (36300 * 1000000)]].
Proof.
  eexists. split; [vm_compute; reflexivity|].
  etransitivity;
    [apply (download_departures_saves_all
              sample_bus_lines sample_departures_for_line [sample_bus_stop]
              [Ok [sample_departure "520" 36000;
                   sample_departure "520" 36600];
               Ok [sample_departure "182" 36300]] _ []);
     vm_compute; reflexivity|].
  vm_compute. reflexivity.
Defined.

(** X17: however a run of [download_departures] ends, the files it has
    written are numbered 1, 2, 3, ... in the order of writing, so that
    no file is written twice; none of them is empty, and every file but
    the last one written holds more than 10000 rows. *)
Theorem download_departures_files {World}
    (bus_lines : BusStop -> World -> outcome (list string) * World)
    (for_line : string -> string -> string -> World
                -> outcome (list Departure) * World)
    (bus_stops : list BusStop) (w : World) o run w' :
  download_departures bus_lines for_line bus_stops w = (o, run, w') ->
  map fst (files run) = map Z.of_nat (seq 1 (length (files run)))
  /\ Forall (fun f => snd f <> []) (files run)
  /\ forall earlier f,
       files run = earlier ++ [f] ->
       Forall (fun f => 10000 < Z.of_nat (length (snd f))) earlier.
Proof.
  unfold download_departures.
  destruct (download_departures_bus_stops bus_lines for_line bus_stops _ w)
    as [[o1 run1] w1] eqn:Hloop.
  apply (download_departures_bus_stops_inv _ _ _ _ _ []) in Hloop
    as [_ Hids Hid Hfull _ _]; [|exact run_inv_start].
  assert (Hne : Forall (fun f : Z * list (list Cell) => snd f <> [])
                       (files run1)).
  { eapply Forall_impl; [exact Hfull|]. intros [i rows] Hlong E.
    cbn [snd] in Hlong, E. subst rows. cbn in Hlong. lia. }
  assert (Hloop_files :
            forall earlier f, files run1 = earlier ++ [f] ->
              Forall (fun f => 10000 < Z.of_nat (length (snd f))) earlier).
  { intros earlier f E. rewrite E in Hfull.
    apply Forall_app in Hfull as [H _]. exact H. }
  destruct o1 as [u|e|];
    [|intros [= <- <- <-]; auto|intros [= <- <- <-]; auto].
  destruct (departures run1) as [|d ds] eqn:Hds.
  - intros [= <- <- <-]. auto.
  - intros [= <- <- <-]. cbn [files]. unfold save_departures_to_file.
    split; [|split].
    + rewrite map_app, length_app, Hids. cbn [map fst length].
      rewrite Nat.add_1_r, seq_S, map_app. cbn [map].
      rewrite Hid. do 2 f_equal. lia.
    + apply Forall_app. split; [exact Hne|].
      constructor; [|constructor]. cbn. discriminate.
    + intros earlier f E. apply app_inj_tail in E as [<- _]. exact Hfull.
Qed.

Lemma download_departures_files_witness :
  exists run,
    download_departures sample_bus_lines sample_departures_for_line
      [sample_bus_stop]
      [Ok (replicate (Z.to_nat 10001) (sample_departure "520" 36000));
       Ok [sample_departure "182" 36300]]
    = (Ok tt, run, [])
    /\ map (fun f => (fst f, Z.of_nat (length (snd f)))) (files run)
       = [(1, 10001); (2, 1)]
    /\ map fst (files run) = map Z.of_nat (seq 1 2).
Proof.
  exists (mkDeparturesRun
            [sample_departure "182" 36300] 2 10002
            [(1, serialize_list Departure_serialize
                   (replicate (Z.to_nat 10001) (sample_departure "520" 36000)));
             (2, serialize_list Departure_serialize
                   [sample_departure "182" 36300])]
            [DownloadingDeparturesForBusStop "7009" "01";
             DownloadingDeparturesForLine "520";
             DownloadingDeparturesForLine "182";
             DeparturesReceived 10002]).
  assert (Hrun :
            download_departures sample_bus_lines sample_departures_for_line
              [sample_bus_stop]
              [Ok (replicate (Z.to_nat 10001) (sample_departure "520" 36000));
               Ok [sample_departure "182" 36300]]
            = (Ok tt,
               mkDeparturesRun
                 [sample_departure "182" 36300] 2 10002
                 [(1, serialize_list Departure_serialize
                        (replicate (Z.to_nat 10001)
                                   (sample_departure "520" 36000)));
                  (2, serialize_list Departure_serialize
                        [sample_departure "182" 36300])]
                 [DownloadingDeparturesForBusStop "7009" "01";
                  DownloadingDeparturesForLine "520";
                  DownloadingDeparturesForLine "182";
                  DeparturesReceived 10002],
               [])) by (vm_compute; reflexivity).
  split; [exact Hrun|]. split; [vm_compute; reflexivity|].
  exact (proj1 (download_departures_files _ _ _ _ _ _ _ Hrun)).
Defined.

(** X18: when a request fails, [download_departures] ends with that
    failure and writes nothing more: the files written hold, in order,
    the first of the departures handed back until then, every file more
    than 10000 of them, and the departures still waiting to be written,
    at most 10000, are in no file. *)
Theorem download_departures_failure {World}
    (bus_lines : BusStop -> World -> outcome (list string) * World)
    (for_line : string -> string -> string -> World
                -> outcome (list Departure) * World)
    (bus_stops : list BusStop) (w : World) o run w' :
  download_departures bus_lines for_line bus_stops w = (o, run, w') ->
  o <> Ok tt ->
  map Departure_serialize (fetched bus_lines for_line bus_stops w)
  = rows_of (files run) ++ map Departure_serialize (departures run)
  /\ Z.of_nat (length (departures run)) <= 10000
  /\ Forall (fun f => 10000 < Z.of_nat (length (snd f))) (files run).
Proof.
  unfold download_departures.
  destruct (download_departures_bus_stops bus_lines for_line bus_stops _ w)
    as [[o1 run1] w1] eqn:Hloop.
  apply (download_departures_bus_stops_inv _ _ _ _ _ []) in Hloop
    as [Hrows _ _ Hfull Hbuf _]; [|exact run_inv_start].
  destruct o1 as [[]|e|].
  - destruct (departures run1); intros [= <- <- <-] Ho; destruct Ho;
      reflexivity.
  - intros [= <- <- <-] _. auto.
  - intros [= <- <- <-] _. auto.
Qed.

Lemma download_departures_failure_witness :
  exists run,
    download_departures sample_bus_lines sample_departures_for_line
      [sample_bus_stop]
      [Ok [sample_departure "520" 36000; sample_departure "520" 36600];
       Raise URLError]
    = (Raise URLError, run, [])
    /\ files run = []
    /\ map Departure_serialize
         [sample_departure "520" 36000; sample_departure "520" 36600]
       = rows_of (files run) ++ map Departure_serialize (departures run).
Proof.
  eexists. split; [vm_compute; reflexivity|]. split; [reflexivity|].
  refine (proj1 (download_departures_failure
                   sample_bus_lines sample_departures_for_line
                   [sample_bus_stop]
                   [Ok [sample_departure "520" 36000;
                        sample_departure "520" 36600];
                    Raise URLError]
                   (Raise URLError) _ [] _ _)).
  - vm_compute. reflexivity.
  - discriminate.
Defined.

(** X19: when [download_departures] returns from a run over at least one
    bus stop, the number in the last message it logged, the one that
    follows the last bus stop, is the number of rows in the files it
    wrote: the message counts the departures of all bus stops so far,
    not those of the bus stop it follows. *)
Theorem departures_received_total {World}
    (bus_lines : BusStop -> World -> outcome (list string) * World)
    (for_line : string -> string -> string -> World
                -> outcome (list Departure) * World)
    (bus_stops : list BusStop) (w : World) run w' :
  download_departures bus_lines for_line bus_stops w = (Ok tt, run, w') ->
  bus_stops <> [] ->
  last (departures_log run)
  = Some (DeparturesReceived (Z.of_nat (length (rows_of (files run))))).
Proof.
  intros Hrun Hne.
  apply download_departures_final in Hrun
    as (u & run1 & Hloop & -> & -> & _).
  rewrite (download_departures_bus_stops_log _ _ _ _ _ _ _ _ Hloop Hne).
  apply (download_departures_bus_stops_inv _ _ _ _ _ []) in Hloop
    as [Hrows _ _ _ _ Hcount]; [|exact run_inv_start].
  cbn [app] in Hrows, Hcount. unfold serialize_list in Hrows.
  rewrite Hrows, length_map, Hcount. reflexivity.
Qed.

Lemma departures_received_total_witness :
  exists run,
    download_departures sample_bus_lines sample_departures_for_line
      [sample_bus_stop; sample_bus_stop]
      [Ok [sample_departure "520" 36000; sample_departure "520" 36600];
       Ok [sample_departure "182" 36300];
       Ok [];
       Ok [sample_departure "182" 36900]]
    = (Ok tt, run, [])
    /\ departures_log run
       = [DownloadingDeparturesForBusStop "7009" "01";
          DownloadingDeparturesForLine "520";
          DownloadingDeparturesForLine "182";
          DeparturesReceived 3;
          DownloadingDeparturesForBusStop "7009" "01";
          DownloadingDeparturesForLine "520";
          DownloadingDeparturesForLine "182";
          DeparturesReceived 4]
    /\ last (departures_log run)
       = Some (DeparturesReceived
                 (Z.of_nat (length (rows_of (files run))))).
Proof.
  eexists. split; [vm_compute; reflexivity|]. split; [reflexivity|].
  apply (departures_received_total
           sample_bus_lines sample_departures_for_line
           [sample_bus_stop; sample_bus_stop]
           [Ok [sample_departure "520" 36000; sample_departure "520" 36600];
            Ok [sample_departure "182" 36300];
            Ok [];
            Ok [sample_departure "182" 36900]] _ []).
  - vm_compute. reflexivity.
  - discriminate.
Defined.
